(** * UAP-51: flight control and combat simulation loop

    A shallow embedding of [src/utils/PIDController.js], of the game logic of
    [src/engine/GameEngine.js] and of [src/utils/constants.js].

    JavaScript numbers are kept abstract behind the class [Number], so that
    every function of the engine is transcribed once.  Two instances are
    given:
    - [R_number]: exact real arithmetic, in which the general theorems are
      stated and proved;
    - [f64_number]: IEEE-754 binary64 ([PrimFloat]), the arithmetic the
      program really runs on, with [Infinity] and [NaN]; the definitions
      evaluate on it with [vm_compute].

    Rendering (scene graph, meshes, camera, lights), the DOM listeners and
    the [onStateChange] callback carry no game state and are left out. *)

From Stdlib Require Import Reals Lra Lia ZArith QArith Bool.
From Stdlib Require PrimFloat Uint63.
From stdpp Require Import gmap strings list.

Set Default Proof Using "Type".

(** ** JavaScript numbers *)

Declare Scope js_scope.
Delimit Scope js_scope with js.

Class Number (num : Type) : Type := {
  lit : Q -> num;                 (* a numeric literal of the source *)
  add : num -> num -> num;
  sub : num -> num -> num;
  mul : num -> num -> num;
  div : num -> num -> num;
  neg : num -> num;
  ltb : num -> num -> bool;       (* a < b *)
  leb : num -> num -> bool;       (* a <= b *)
  truthy : num -> bool;           (* ToBoolean: false on 0 and NaN *)
  Math_max : num -> num -> num;
  Math_min : num -> num -> num;
  Math_sqrt : num -> num
}.

Class Trig (num : Type) : Type := {
  Math_sin : num -> num;
  Math_cos : num -> num;
  Math_PI : num
}.

Notation "# q" := (lit q%Q) (at level 8, format "# q") : js_scope.
Infix "+" := add : js_scope.
Infix "-" := sub : js_scope.
Infix "*" := mul : js_scope.
Infix "/" := div : js_scope.
Notation "- a" := (neg a) : js_scope.
Infix "<?" := ltb : js_scope.
Infix "<=?" := leb : js_scope.
(** [a > b] of the source is [b < a]. *)
Notation "a >? b" := (ltb b a) (at level 70, no associativity) : js_scope.

(** *** Exact real arithmetic *)

Definition Rltb (a b : R) : bool := if Rlt_dec a b then true else false.
Definition Rleb (a b : R) : bool := if Rle_dec a b then true else false.
Definition Rtruthy (a : R) : bool := if Req_dec_T a 0 then false else true.

#[export] Instance R_number : Number R := {|
  lit := Q2R;
  add := Rplus; sub := Rminus; mul := Rmult; div := Rdiv; neg := Ropp;
  ltb := Rltb; leb := Rleb; truthy := Rtruthy;
  Math_max := Rmax; Math_min := Rmin; Math_sqrt := sqrt
|}.

#[export] Instance R_trig : Trig R := {|
  Math_sin := sin; Math_cos := cos; Math_PI := PI
|}.

(** *** IEEE-754 binary64 *)

Module F64.
Definition of_Z (n : Z) : PrimFloat.float :=
  match n with
  | Z0 => PrimFloat.zero
  | Zpos _ => PrimFloat.of_uint63 (Uint63.of_Z n)
  | Zneg p => PrimFloat.opp (PrimFloat.of_uint63 (Uint63.of_Z (Zpos p)))
  end.

(** Division is correctly rounded, so for a literal with small numerator
    and denominator this is the double nearest to it. *)
Definition lit (q : Q) : PrimFloat.float :=
  PrimFloat.div (of_Z (Qnum q)) (of_Z (Zpos (Qden q))).

Definition truthy (a : PrimFloat.float) : bool :=
  negb (PrimFloat.is_nan a || PrimFloat.is_zero a).

(** [Math.max]: NaN if either argument is NaN; [+0] is larger than [-0]. *)
Definition max (a b : PrimFloat.float) : PrimFloat.float :=
  if PrimFloat.is_nan a || PrimFloat.is_nan b then PrimFloat.nan
  else if PrimFloat.ltb a b then b
  else if PrimFloat.ltb b a then a
  else if PrimFloat.get_sign a then b else a.

Definition min (a b : PrimFloat.float) : PrimFloat.float :=
  if PrimFloat.is_nan a || PrimFloat.is_nan b then PrimFloat.nan
  else if PrimFloat.ltb a b then a
  else if PrimFloat.ltb b a then b
  else if PrimFloat.get_sign a then a else b.

(** [Number.isFinite]. *)
Definition is_finite (a : PrimFloat.float) : bool :=
  negb (PrimFloat.is_nan a || PrimFloat.is_infinity a).
End F64.

#[export] Instance f64_number : Number PrimFloat.float := {|
lit := F64.lit;
add := PrimFloat.add; sub := PrimFloat.sub; mul := PrimFloat.mul;
div := PrimFloat.div; neg := PrimFloat.opp;
ltb := PrimFloat.ltb; leb := PrimFloat.leb; truthy := F64.truthy;
Math_max := F64.max; Math_min := F64.min; Math_sqrt := PrimFloat.sqrt
|}.

(** ** [PIDController] ([src/utils/PIDController.js]) *)

Module PID.
Section PID.
Context {num : Type} `{Number num}.
Local Open Scope js_scope.

Record PIDController : Type := mk {
  kp : num;
  ki : num;
  kd : num;
  maxOutput : num;
  integral : num;
  prevError : num;
  lastP : num;
  lastI : num;
  lastD : num
}.

(** [constructor(kp, ki, kd, maxOutput = 80)] *)
Definition new (kp ki kd : num) (maxOutput : option num) : PIDController :=
  {| kp := kp; ki := ki; kd := kd;
     maxOutput := default #80 maxOutput;
     integral := #0; prevError := #0;
     lastP := #0; lastI := #0; lastD := #0 |}.

(** [calculate(error, dt)]: the returned output and the mutated object. *)
Definition calculate (this : PIDController) (error dt : num)
  : num * PIDController :=
  let lastP := kp this * error in
  let integral := Math_max (- #15) (Math_min #15 (integral this + error * dt)) in
  let lastI := ki this * integral in
  let derivative := (error - prevError this) / dt in
  let lastD := kd this * derivative in
  let prevError := error in
  let output := lastP + lastI + lastD in
  (Math_max (- maxOutput this) (Math_min (maxOutput this) output),
   {| kp := kp this; ki := ki this; kd := kd this;
      maxOutput := maxOutput this;
      integral := integral; prevError := prevError;
      lastP := lastP; lastI := lastI; lastD := lastD |}).

(** [reset()] *)
Definition reset (this : PIDController) : PIDController :=
  {| kp := kp this; ki := ki this; kd := kd this;
     maxOutput := maxOutput this;
     integral := #0; prevError := #0;
     lastP := #0; lastI := #0; lastD := #0 |}.

(** [getValues()] *)
Definition getValues (this : PIDController) : num * num * num :=
  (lastP this, lastI this, lastD this).
End PID.
Arguments PIDController : clear implicits.
End PID.

(** ** [THREE.Vector3]

    The engine keeps positions, velocities and directions in three.js
    vectors.  Only the methods the game logic calls are given, with the
    semantics of the three.js library.  The methods that mutate their
    receiver and return it ([add], [multiplyScalar], [normalize]) are
    functions to the new value of the receiver; where the source keeps a
    reference to the mutated vector, the caller rebinds it. *)

Module Vector3.
Section Vector3.
Context {num : Type} `{Number num}.
Local Open Scope js_scope.

Record t : Type := mk { x : num; y : num; z : num }.

(** [new THREE.Vector3()] *)
Definition zero : t := mk #0 #0 #0.

Definition subVectors (a b : t) : t :=
  mk (x a - x b) (y a - y b) (z a - z b).

Definition add (this v : t) : t :=
  mk (x this + x v) (y this + y v) (z this + z v).

Definition multiplyScalar (this : t) (s : num) : t :=
  mk (x this * s) (y this * s) (z this * s).

Definition length (this : t) : num :=
  Math_sqrt (x this * x this + y this * y this + z this * z this).

Definition divideScalar (this : t) (s : num) : t :=
  multiplyScalar this (#1 / s).

(** [this.divideScalar(this.length() || 1)] *)
Definition normalize (this : t) : t :=
  let l := length this in
  divideScalar this (if truthy l then l else #1).

Definition distanceToSquared (this v : t) : num :=
  let dx := x this - x v in
  let dy := y this - y v in
  let dz := z this - z v in
  dx * dx + dy * dy + dz * dz.

Definition distanceTo (this v : t) : num :=
  Math_sqrt (distanceToSquared this v).
End Vector3.
Arguments t : clear implicits.
End Vector3.

(** ** [GAME_CONFIG] ([src/utils/constants.js]) *)

Module GAME_CONFIG.
Section GAME_CONFIG.
Context {num : Type} `{Number num}.
Local Open Scope js_scope.

Definition ALIEN_COUNT : nat := 5.
Definition ALIEN_FIRE_RATE_MIN : num := #2500.
Definition ALIEN_FIRE_RATE_MAX : num := #4500.
Definition ALIEN_RANGE : num := #60.

Definition LASER_SPEED : num := #60.
Definition LASER_MAX_DISTANCE : num := #120.
Definition LASER_DAMAGE : num := #18.

Definition UAP_THRUST : num := #40.
Definition UAP_BOOST_THRUST : num := #100.
Definition UAP_BOOST_DRAIN : num := #30.
Definition UAP_BOOST_RECHARGE : num := #15.
Definition UAP_GRAVITY : num := - #15.
Definition UAP_HOVER_FORCE : num := #14.
Definition UAP_DAMPING : num := #0.94.

Definition SHIELD_MAX : num := #100.
Definition SHIELD_REGEN : num := #4.

(** [WORLD_BOUNDS: { x: 60, y: { min: 1, max: 50 }, z: 60 }] *)
Definition WORLD_BOUNDS_x : num := #60.
Definition WORLD_BOUNDS_y_min : num := #1.
Definition WORLD_BOUNDS_y_max : num := #50.
Definition WORLD_BOUNDS_z : num := #60.

(** [PID: { X: {P, I, D}, Y: {P, I, D}, Z: {P, I, D} }] as (P, I, D). *)
Definition PID_X : num * num * num := (#10, #0.5, #5).
Definition PID_Y : num * num * num := (#12, #0.8, #6).
Definition PID_Z : num * num * num := (#10, #0.5, #5).
End GAME_CONFIG.
End GAME_CONFIG.

(** ** [GameEngine] ([src/engine/GameEngine.js]) *)

Module GameEngine.
Section GameEngine.
Context {num : Type} `{Number num} `{Trig num}.
Local Open Scope js_scope.

(** An alien: its group position and its [userData]. *)
Record Alien : Type := mkAlien {
  position : Vector3.t num;
  visible : bool;
  alive : bool;
  baseY : num;
  lastShot : num;
  shotInterval : num
}.

(** What [createLaser] returns; [mesh_position] is [laser.mesh.position]. *)
Record Laser : Type := mkLaser {
  mesh_position : Vector3.t num;
  direction : Vector3.t num;
  speed : num;
  distance : num;
  counted : bool
}.

Record t : Type := mk {
  uap_position : Vector3.t num;          (* this.uap.position *)
  uapVelocity : Vector3.t num;
  aliens : list Alien;
  lasers : list Laser;
  shields : num;
  boost : num;
  survivalTime : num;
  evadeCount : num;
  isBoosting : bool;
  autopilot : bool;
  gameStarted : bool;
  gamePaused : bool;
  gameOver : bool;
  keys : gmap string bool;
  pidX : PID.PIDController num;
  pidY : PID.PIDController num;
  pidZ : PID.PIDController num
}.

(** The number [i] of a loop counter or of a [forEach] index. *)
Definition index (i : nat) : num := lit (inject_Z (Z.of_nat i)).

(** [this.keys[code]] as a condition: a key never pressed is [undefined]. *)
Definition key (this : t) (code : string) : bool :=
  default false (keys this !! code).

(** *** Construction

    [Math.random()] is a stream [rnd]: [rnd k] is the value of the [k]-th
    call made by the function at hand. *)

(** The loop of [createAliens], from counter [i], [n] iterations left. *)
Fixpoint createAliens_from (rnd : nat -> num) (i n : nat) : list Alien :=
  match n with
  | O => []
  | S n' =>
    let angle := index i / index GAME_CONFIG.ALIEN_COUNT * Math_PI * #2 in
    let radius := #25 + rnd (4 * i)%nat * #15 in
    let x := Math_cos angle * radius in
    let z := Math_sin angle * radius in
    let y := #3 + rnd (4 * i + 1)%nat * #5 in
    {| position := Vector3.mk x y z;
       visible := true;
       alive := true;
       baseY := y;
       lastShot := rnd (4 * i + 2)%nat * #2000;
       shotInterval := GAME_CONFIG.ALIEN_FIRE_RATE_MIN +
         rnd (4 * i + 3)%nat *
         (GAME_CONFIG.ALIEN_FIRE_RATE_MAX - GAME_CONFIG.ALIEN_FIRE_RATE_MIN) |}
    :: createAliens_from rnd (S i) n'
  end.

Definition createAliens (rnd : nat -> num) : list Alien :=
  createAliens_from rnd 0 GAME_CONFIG.ALIEN_COUNT.

Definition newPID (gains : num * num * num) : PID.PIDController num :=
  let '(P, I_, D) := gains in PID.new P I_ D None.

(** The constructor followed by the game part of [init()]: [createUAP]
    places the craft, [createAliens] the sentries. *)
Definition init (rnd : nat -> num) : t :=
  {| uap_position := Vector3.mk #0 #10 #0;
     uapVelocity := Vector3.zero;
     aliens := createAliens rnd;
     lasers := [];
     shields := GAME_CONFIG.SHIELD_MAX;
     boost := #100;
     survivalTime := #0;
     evadeCount := #0;
     isBoosting := false;
     autopilot := true;
     gameStarted := false;
     gamePaused := false;
     gameOver := false;
     keys := ∅;
     pidX := newPID GAME_CONFIG.PID_X;
     pidY := newPID GAME_CONFIG.PID_Y;
     pidZ := newPID GAME_CONFIG.PID_Z |}.

Definition createLaser (start target : Vector3.t num) : Laser :=
  let direction := Vector3.normalize (Vector3.subVectors target start) in
  {| mesh_position := start;
     direction := direction;
     speed := GAME_CONFIG.LASER_SPEED;
     distance := #0;
     counted := false |}.

(** *** [calculateEvadeTarget] *)

(** Body of [this.lasers.forEach]. *)
Definition avoidLaser (uap : Vector3.t num)
    (dangerDirection : Vector3.t num) (laser : Laser) : Vector3.t num :=
  let toUAP := Vector3.subVectors uap (mesh_position laser) in
  let distance := Vector3.length toUAP in
  if distance <? #20 then
    let toUAP := Vector3.multiplyScalar (Vector3.normalize toUAP)
                   (#20 / (distance + #1)) in
    Vector3.add dangerDirection toUAP
  else dangerDirection.

(** Body of [this.aliens.forEach]. *)
Definition avoidAlien (uap : Vector3.t num)
    (dangerDirection : Vector3.t num) (alien : Alien) : Vector3.t num :=
  if negb (alive alien) then dangerDirection else
  let toUAP := Vector3.subVectors uap (position alien) in
  let distance := Vector3.length toUAP in
  if distance <? #15 then
    let toUAP := Vector3.multiplyScalar (Vector3.normalize toUAP)
                   (#10 / (distance + #1)) in
    Vector3.add dangerDirection toUAP
  else dangerDirection.

(** [dangerDirection] after the two [forEach] loops. *)
Definition accumulateDanger (this : t) : Vector3.t num :=
  let dangerDirection := Vector3.zero in
  let dangerDirection :=
    fold_left (avoidLaser (uap_position this)) (lasers this) dangerDirection in
  fold_left (avoidAlien (uap_position this)) (aliens this) dangerDirection.

Definition calculateEvadeTarget (this : t) : Vector3.t num :=
  let dangerDirection := accumulateDanger this in
  (* [dangerDirection.multiplyScalar(2)] doubles [dangerDirection] itself,
     and it is the doubled vector that is measured below *)
  let dangerDirection := Vector3.multiplyScalar dangerDirection #2 in
  let target := Vector3.add (uap_position this) dangerDirection in
  let target_y :=
    Math_max #5 (Math_min #25
      (Vector3.y target + (#15 - Vector3.y (uap_position this)) * #0.1)) in
  let target_x :=
    Math_max (- GAME_CONFIG.WORLD_BOUNDS_x * #0.7)
      (Math_min (GAME_CONFIG.WORLD_BOUNDS_x * #0.7) (Vector3.x target)) in
  let target_z :=
    Math_max (- GAME_CONFIG.WORLD_BOUNDS_z * #0.7)
      (Math_min (GAME_CONFIG.WORLD_BOUNDS_z * #0.7) (Vector3.z target)) in
  if Vector3.length dangerDirection <? #1 then
    Vector3.mk
      (target_x + Math_sin (survivalTime this * #0.5) * #10)
      (#10 + Math_sin (survivalTime this * #0.3) * #5)
      (target_z + Math_cos (survivalTime this * #0.7) * #10)
  else Vector3.mk target_x target_y target_z.

(** *** Commands *)

Definition start (isAutopilot : bool) (this : t) : t :=
  {| uap_position := uap_position this; uapVelocity := uapVelocity this;
     aliens := aliens this; lasers := lasers this;
     shields := shields this; boost := boost this;
     survivalTime := survivalTime this; evadeCount := evadeCount this;
     isBoosting := isBoosting this;
     autopilot := isAutopilot;
     gameStarted := true; gamePaused := false; gameOver := false;
     keys := keys this;
     pidX := pidX this; pidY := pidY this; pidZ := pidZ this |}.

Definition togglePause (this : t) : t :=
  if negb (gameStarted this) || gameOver this then this else
  {| uap_position := uap_position this; uapVelocity := uapVelocity this;
     aliens := aliens this; lasers := lasers this;
     shields := shields this; boost := boost this;
     survivalTime := survivalTime this; evadeCount := evadeCount this;
     isBoosting := isBoosting this;
     autopilot := autopilot this;
     gameStarted := gameStarted this;
     gamePaused := negb (gamePaused this);
     gameOver := gameOver this;
     keys := keys this;
     pidX := pidX this; pidY := pidY this; pidZ := pidZ this |}.

Definition toggleAutopilot (this : t) : t :=
  {| uap_position := uap_position this; uapVelocity := uapVelocity this;
     aliens := aliens this; lasers := lasers this;
     shields := shields this; boost := boost this;
     survivalTime := survivalTime this; evadeCount := evadeCount this;
     isBoosting := isBoosting this;
     autopilot := negb (autopilot this);
     gameStarted := gameStarted this;
     gamePaused := gamePaused this;
     gameOver := gameOver this;
     keys := keys this;
     pidX := PID.reset (pidX this);
     pidY := PID.reset (pidY this);
     pidZ := PID.reset (pidZ this) |}.

(** Body of [this.aliens.forEach] in [restart]; [r] is [Math.random()]. *)
Definition resetAlien (r : num) (alien : Alien) : Alien :=
  {| position := position alien;
     visible := true;
     alive := true;
     baseY := baseY alien;
     lastShot := r * #2000;
     shotInterval := shotInterval alien |}.

(** The [forEach] of [restart]: the alien at index [k + i] takes the
    [(k + i)]-th random number. *)
Fixpoint resetAliens (rnd : nat -> num) (k : nat) (aliens : list Alien)
  : list Alien :=
  match aliens with
  | [] => []
  | alien :: rest => resetAlien (rnd k) alien :: resetAliens rnd (S k) rest
  end.

Definition restart (rnd : nat -> num) (this : t) : t :=
  {| shields := GAME_CONFIG.SHIELD_MAX;
     boost := #100;
     survivalTime := #0;
     evadeCount := #0;
     uap_position := Vector3.mk #0 #10 #0;
     uapVelocity := Vector3.mk #0 #0 #0;
     aliens := resetAliens rnd 0 (aliens this);
     lasers := [];
     pidX := PID.reset (pidX this);
     pidY := PID.reset (pidY this);
     pidZ := PID.reset (pidZ this);
     gameStarted := true; gamePaused := false; gameOver := false;
     isBoosting := isBoosting this;
     autopilot := autopilot this;
     keys := keys this |}.

Definition set_gameStarted (b : bool) (this : t) : t :=
  {| uap_position := uap_position this; uapVelocity := uapVelocity this;
     aliens := aliens this; lasers := lasers this;
     shields := shields this; boost := boost this;
     survivalTime := survivalTime this; evadeCount := evadeCount this;
     isBoosting := isBoosting this;
     autopilot := autopilot this;
     gameStarted := b;
     gamePaused := gamePaused this;
     gameOver := gameOver this;
     keys := keys this;
     pidX := pidX this; pidY := pidY this; pidZ := pidZ this |}.

Definition quit (rnd : nat -> num) (this : t) : t :=
  set_gameStarted false (restart rnd this).

Definition set_keys (keys : gmap string bool) (this : t) : t :=
  {| uap_position := uap_position this; uapVelocity := uapVelocity this;
     aliens := aliens this; lasers := lasers this;
     shields := shields this; boost := boost this;
     survivalTime := survivalTime this; evadeCount := evadeCount this;
     isBoosting := isBoosting this;
     autopilot := autopilot this;
     gameStarted := gameStarted this;
     gamePaused := gamePaused this;
     gameOver := gameOver this;
     keys := keys;
     pidX := pidX this; pidY := pidY this; pidZ := pidZ this |}.

Definition handleKeyDown (code : string) (this : t) : t :=
  set_keys (<[code := true]> (keys this)) this.

Definition handleKeyUp (code : string) (this : t) : t :=
  set_keys (<[code := false]> (keys this)) this.

(** *** [update(dt, time)]

    One simulation step, phase by phase in the order of the source.  [now]
    is the value of [performance.now()]. *)

(** [this.survivalTime += dt] and the boost management. *)
Definition updateBoost (dt : num) (this : t) : t :=
  let survivalTime := survivalTime this + dt in
  let isBoosting := key this "KeyE" && (boost this >? #0) in
  let boost :=
    if isBoosting then
      Math_max #0 (boost this - GAME_CONFIG.UAP_BOOST_DRAIN * dt)
    else if boost this <? #100 then
      Math_min #100 (boost this + GAME_CONFIG.UAP_BOOST_RECHARGE * dt)
    else boost this in
  {| uap_position := uap_position this; uapVelocity := uapVelocity this;
     aliens := aliens this; lasers := lasers this;
     shields := shields this;
     boost := boost;
     survivalTime := survivalTime;
     evadeCount := evadeCount this;
     isBoosting := isBoosting;
     autopilot := autopilot this;
     gameStarted := gameStarted this;
     gamePaused := gamePaused this;
     gameOver := gameOver this;
     keys := keys this;
     pidX := pidX this; pidY := pidY this; pidZ := pidZ this |}.

(** The manual branch of the movement calculation, from [force = (0,0,0)]. *)
Definition manualForce (this : t) (thrust : num) : Vector3.t num :=
  let force_x := #0 in
  let force_y := #0 in
  let force_z := #0 in
  let force_z := if key this "KeyW" then force_z - thrust else force_z in
  let force_z := if key this "KeyS" then force_z + thrust else force_z in
  let force_x := if key this "KeyA" then force_x - thrust else force_x in
  let force_x := if key this "KeyD" then force_x + thrust else force_x in
  let force_y := if key this "Space" then force_y + thrust else force_y in
  let force_y :=
    if key this "ShiftLeft" || key this "ShiftRight"
    then force_y - thrust * #0.5 else force_y in
  let force_y :=
    force_y + (GAME_CONFIG.UAP_GRAVITY + GAME_CONFIG.UAP_HOVER_FORCE) in
  Vector3.mk force_x force_y force_z.

(** The bounds checking at the end of the physics: new position and
    velocity. *)
Definition checkBounds (position velocity : Vector3.t num)
  : Vector3.t num * Vector3.t num :=
  let '(position_y, velocity_y) :=
    if Vector3.y position <? GAME_CONFIG.WORLD_BOUNDS_y_min
    then (GAME_CONFIG.WORLD_BOUNDS_y_min, Math_max #0 (Vector3.y velocity))
    else (Vector3.y position, Vector3.y velocity) in
  let position_y :=
    if position_y >? GAME_CONFIG.WORLD_BOUNDS_y_max
    then GAME_CONFIG.WORLD_BOUNDS_y_max else position_y in
  let position_x :=
    Math_max (- GAME_CONFIG.WORLD_BOUNDS_x)
      (Math_min GAME_CONFIG.WORLD_BOUNDS_x (Vector3.x position)) in
  let position_z :=
    Math_max (- GAME_CONFIG.WORLD_BOUNDS_z)
      (Math_min GAME_CONFIG.WORLD_BOUNDS_z (Vector3.z position)) in
  (Vector3.mk position_x position_y position_z,
   Vector3.mk (Vector3.x velocity) velocity_y (Vector3.z velocity)).

(** The autopilot branch of the movement calculation: the force and the
    three controllers after their [calculate]. *)
Definition autopilotForce (dt : num) (this : t)
  : Vector3.t num * PID.PIDController num * PID.PIDController num
    * PID.PIDController num :=
  let target := calculateEvadeTarget this in
  let '(force_x, pidX) :=
    PID.calculate (pidX this)
      (Vector3.x target - Vector3.x (uap_position this)) dt in
  let '(force_y, pidY) :=
    PID.calculate (pidY this)
      (Vector3.y target - Vector3.y (uap_position this)) dt in
  let '(force_z, pidZ) :=
    PID.calculate (pidZ this)
      (Vector3.z target - Vector3.z (uap_position this)) dt in
  (Vector3.mk force_x force_y force_z, pidX, pidY, pidZ).

(** Movement calculation, physics and bounds checking. *)
Definition updateCraft (dt : num) (this : t) : t :=
  let thrust :=
    if isBoosting this then GAME_CONFIG.UAP_BOOST_THRUST
    else GAME_CONFIG.UAP_THRUST in
  let '(force, pidX, pidY, pidZ) :=
    if autopilot this then autopilotForce dt this
    else (manualForce this thrust, pidX this, pidY this, pidZ this) in
  let uapVelocity :=
    Vector3.add (uapVelocity this) (Vector3.multiplyScalar force dt) in
  let uapVelocity :=
    Vector3.multiplyScalar uapVelocity GAME_CONFIG.UAP_DAMPING in
  let position :=
    Vector3.add (uap_position this) (Vector3.multiplyScalar uapVelocity dt) in
  let '(position, uapVelocity) := checkBounds position uapVelocity in
  {| uap_position := position; uapVelocity := uapVelocity;
     aliens := aliens this; lasers := lasers this;
     shields := shields this; boost := boost this;
     survivalTime := survivalTime this;
     evadeCount := evadeCount this;
     isBoosting := isBoosting this;
     autopilot := autopilot this;
     gameStarted := gameStarted this;
     gamePaused := gamePaused this;
     gameOver := gameOver this;
     keys := keys this;
     pidX := pidX; pidY := pidY; pidZ := pidZ |}.

(** Shield regeneration. *)
Definition regenShields (dt : num) (shields : num) : num :=
  if shields <? GAME_CONFIG.SHIELD_MAX then
    Math_min GAME_CONFIG.SHIELD_MAX (shields + GAME_CONFIG.SHIELD_REGEN * dt)
  else shields.

(** Body of [this.aliens.forEach((alien, index) => ...)]: the alien after
    the frame and the laser it fires, if any. *)
Definition updateAlien (time now : num) (this : t) (i : nat) (alien : Alien)
  : Alien * option Laser :=
  if negb (alive alien) then (alien, None) else
  let position :=
    Vector3.mk (Vector3.x (position alien))
      (baseY alien + Math_sin (time * #2 + index i) * #0.5)
      (Vector3.z (position alien)) in
  let distance := Vector3.distanceTo position (uap_position this) in
  if (distance <? GAME_CONFIG.ALIEN_RANGE)
     && (now - lastShot alien >? shotInterval alien) then
    let aim := uap_position this in
    let aim :=
      if negb (autopilot this)
      then Vector3.add aim (Vector3.multiplyScalar (uapVelocity this) #0.2)
      else aim in
    ({| position := position; visible := visible alien;
        alive := alive alien; baseY := baseY alien;
        lastShot := now;
        shotInterval := shotInterval alien |},
     Some (createLaser position aim))
  else
    ({| position := position; visible := visible alien;
        alive := alive alien; baseY := baseY alien;
        lastShot := lastShot alien;
        shotInterval := shotInterval alien |},
     None).

(** The [forEach] over the aliens from index [i]: the aliens after the
    frame and [this.lasers] with the new lasers pushed at its end. *)
Fixpoint updateAliens (time now : num) (this : t) (i : nat)
    (aliens : list Alien) (lasers : list Laser)
  : list Alien * list Laser :=
  match aliens with
  | [] => ([], lasers)
  | alien :: rest =>
    let '(alien, fired) := updateAlien time now this i alien in
    let lasers :=
      match fired with Some laser => lasers ++ [laser] | None => lasers end in
    let '(rest, lasers) := updateAliens time now this (S i) rest lasers in
    (alien :: rest, lasers)
  end.

(** *** The laser loop of [update] *)

(** What became of a laser in a frame. *)
Inductive Fate : Type :=
  | Traveling (laser : Laser)
  | Collided
  | Expired.

(** [laser.distance += ...; laser.mesh.position.add(...)] *)
Definition advance (dt : num) (laser : Laser) : Laser :=
  {| mesh_position :=
       Vector3.add (mesh_position laser)
         (Vector3.multiplyScalar (direction laser) (speed laser * dt));
     direction := direction laser;
     speed := speed laser;
     distance := distance laser + speed laser * dt;
     counted := counted laser |}.

Definition set_counted (b : bool) (laser : Laser) : Laser :=
  {| mesh_position := mesh_position laser;
     direction := direction laser;
     speed := speed laser;
     distance := distance laser;
     counted := b |}.

(** The distance [distanceToUAP] the loop body measures for [laser]. *)
Definition distanceToUAP (dt : num) (uap : Vector3.t num) (laser : Laser)
  : num :=
  Vector3.distanceTo (mesh_position (advance dt laser)) uap.

(** [distanceToUAP < 4 && distanceToUAP > 1.8 && !laser.counted] *)
Definition nearMiss (distanceToUAP : num) (laser : Laser) : bool :=
  (distanceToUAP <? #4) && (distanceToUAP >? #1.8) && negb (counted laser).

(** [laser.distance > GAME_CONFIG.LASER_MAX_DISTANCE ||
     laser.mesh.position.y < 0] *)
Definition isOld (laser : Laser) : bool :=
  (distance laser >? GAME_CONFIG.LASER_MAX_DISTANCE)
  || (Vector3.y (mesh_position laser) <? #0).

(** One iteration of the loop body on [laser]: its fate, [this.shields]
    and [this.evadeCount]. *)
Definition laserStep (dt : num) (uap : Vector3.t num) (laser : Laser)
    (shields evadeCount : num) : Fate * num * num :=
  let laser := advance dt laser in
  let distanceToUAP := Vector3.distanceTo (mesh_position laser) uap in
  if distanceToUAP <? #1.8 then
    (Collided, Math_max #0 (shields - GAME_CONFIG.LASER_DAMAGE), evadeCount)
  else
    let '(laser, evadeCount) :=
      if nearMiss distanceToUAP laser
      then (set_counted true laser, evadeCount + #1)
      else (laser, evadeCount) in
    if isOld laser
    then (Expired, shields, evadeCount)
    else (Traveling laser, shields, evadeCount).

Definition set_combat (lasers : list Laser) (shields evadeCount : num)
    (gameOver : bool) (this : t) : t :=
  {| uap_position := uap_position this; uapVelocity := uapVelocity this;
     aliens := aliens this;
     lasers := lasers;
     shields := shields;
     boost := boost this;
     survivalTime := survivalTime this;
     evadeCount := evadeCount;
     isBoosting := isBoosting this;
     autopilot := autopilot this;
     gameStarted := gameStarted this;
     gamePaused := gamePaused this;
     gameOver := gameOver;
     keys := keys this;
     pidX := pidX this; pidY := pidY this; pidZ := pidZ this |}.

(** The loop body at index [i]: [splice(i, 1)] is [delete i], and a laser
    that travels on has been mutated in place. *)
Definition laserIteration (dt : num) (i : nat) (this : t) : t :=
  match lasers this !! i with
  | None => this
  | Some laser =>
    let '(fate, shields, evadeCount) :=
      laserStep dt (uap_position this) laser (shields this) (evadeCount this) in
    match fate with
    | Collided =>
      (* [if (this.shields <= 0) this.endGame()] *)
      set_combat (delete i (lasers this)) shields evadeCount
        (if shields <=? #0 then true else gameOver this) this
    | Expired =>
      set_combat (delete i (lasers this)) shields evadeCount
        (gameOver this) this
    | Traveling laser =>
      set_combat (<[i := laser]> (lasers this)) shields evadeCount
        (gameOver this) this
    end
  end.

(** [for (let i = n - 1; i >= 0; i--)] *)
Fixpoint laserLoop (dt : num) (n : nat) (this : t) : t :=
  match n with
  | O => this
  | S i => laserLoop dt i (laserIteration dt i this)
  end.

Definition updateLasers (dt : num) (this : t) : t :=
  laserLoop dt (length (lasers this)) this.

(** Shield regeneration and the alien loop, between the physics and the
    laser loop. *)
Definition updateAliensAndShields (dt time now : num) (this : t) : t :=
  let shields := regenShields dt (shields this) in
  let '(aliens, lasers) :=
    updateAliens time now this 0 (aliens this) (lasers this) in
  {| uap_position := uap_position this; uapVelocity := uapVelocity this;
     aliens := aliens;
     lasers := lasers;
     shields := shields;
     boost := boost this;
     survivalTime := survivalTime this;
     evadeCount := evadeCount this;
     isBoosting := isBoosting this;
     autopilot := autopilot this;
     gameStarted := gameStarted this;
     gamePaused := gamePaused this;
     gameOver := gameOver this;
     keys := keys this;
     pidX := pidX this; pidY := pidY this; pidZ := pidZ this |}.

Definition update (dt time now : num) (this : t) : t :=
  updateLasers dt
    (updateAliensAndShields dt time now
      (updateCraft dt
        (updateBoost dt this))).

(** *** [animate]

    [delta] is [this.clock.getDelta()] and [time] is
    [this.clock.getElapsedTime()]. *)

Definition frame_dt (delta : num) : num := Math_min delta #0.1.

Definition animate (delta time now : num) (this : t) : t :=
  let dt := frame_dt delta in
  if gameStarted this && negb (gamePaused this) && negb (gameOver this)
  then update dt time now this
  else this.

End GameEngine.
Arguments Alien : clear implicits.
Arguments Laser : clear implicits.
Arguments Fate : clear implicits.
Arguments t : clear implicits.
End GameEngine.

(** ** Following the lasers

    Notions derived from the loop body, in which the properties of the
    projectiles are stated. *)

Section Laser_flight.
Context {num : Type} `{Number num}.
Local Open Scope js_scope.
Import GameEngine.

(** The laser loop as one pass over the list from its last laser to its
    first: the lasers that travel on, then the shields, the evade count and
    the game-over flag. *)
Fixpoint sweep (dt : num) (uap : Vector3.t num) (lasers : list (Laser num))
    (shields evadeCount : num) (gameOver : bool)
  : list (Laser num) * num * num * bool :=
  match lasers with
  | [] => ([], shields, evadeCount, gameOver)
  | laser :: rest =>
    let '(rest, shields, evadeCount, gameOver) :=
      sweep dt uap rest shields evadeCount gameOver in
    match laserStep dt uap laser shields evadeCount with
    | (Traveling laser, shields, evadeCount) =>
      (laser :: rest, shields, evadeCount, gameOver)
    | (Collided, shields, evadeCount) =>
      (rest, shields, evadeCount, if shields <=? #0 then true else gameOver)
    | (Expired, shields, evadeCount) =>
      (rest, shields, evadeCount, gameOver)
    end
  end.

(** A frame as a laser meets it: the delta-time of the frame and the
    position of the craft when the laser loop runs. *)
Definition Frame : Type := num * Vector3.t num.

(** One laser followed frame after frame until it is removed, in a game
    where no other laser touches the craft: each frame regenerates the
    shields, then runs the loop body on the laser. *)
Fixpoint flight (frames : list Frame) (laser : Laser num)
    (shields evadeCount : num) : Fate num * num * num :=
  match frames with
  | [] => (Traveling laser, shields, evadeCount)
  | (dt, uap) :: rest =>
    match laserStep dt uap laser (regenShields dt shields) evadeCount with
    | (Traveling laser, shields, evadeCount) =>
      flight rest laser shields evadeCount
    | stop => stop
    end
  end.


End Laser_flight.

(** ** Reference states and predicates *)

Section Scenarios.
Local Open Scope R_scope.
Import GameEngine.

(** The X-axis controller of the engine, as constructed. *)
Definition engine_pidX : PID.PIDController R :=
  GameEngine.newPID GAME_CONFIG.PID_X.

(** A game in progress under the autopilot, as [start(true)] leaves it;
    every random draw is 0. *)
Definition autopilot_game : GameEngine.t R := start true (init (fun _ => 0)).

(** The same game under manual control. *)
Definition manual_game : GameEngine.t R := start false (init (fun _ => 0)).

(** The craft moved to [p], at session time [time]. *)
Definition craft_at (p : Vector3.t R) (time : R) (g : GameEngine.t R)
  : GameEngine.t R :=
  {| uap_position := p; uapVelocity := uapVelocity g;
     aliens := aliens g; lasers := lasers g;
     shields := shields g; boost := boost g;
     survivalTime := time; evadeCount := evadeCount g;
     isBoosting := isBoosting g; autopilot := autopilot g;
     gameStarted := gameStarted g; gamePaused := gamePaused g;
     gameOver := gameOver g; keys := keys g;
     pidX := pidX g; pidY := pidY g; pidZ := pidZ g |}.

(** The craft and its controllers. *)
Definition craft (g : GameEngine.t R) :=
  (uap_position g, uapVelocity g, pidX g, pidY g, pidZ g).


(** The aliens that [createAliens] places when every random draw is 0 stand
    on the ring of radius 25, at height 3. *)
Definition on_ring (alien : Alien R) : Prop :=
  Vector3.x (position alien) * Vector3.x (position alien)
  + Vector3.z (position alien) * Vector3.z (position alien) = 625 /\
  Vector3.y (position alien) = 3.

(** The craft hovering at its starting point. *)
Definition hover_point : Vector3.t R := Vector3.mk 0 10 0.

(** A laser at [(x, 10, z)] flying along -Z at the configured speed, having
    travelled [n]. *)
Definition incoming (x z n : R) (c : bool) : Laser R :=
  {| mesh_position := Vector3.mk x 10 z;
     direction := Vector3.mk 0 0 (-1);
     speed := 60;
     distance := n;
     counted := c |}.

(** [autopilot_game] with one laser in the air, 19.5 away from the craft. *)
Definition distant_laser_game : GameEngine.t R :=
  set_combat [incoming 0 19.5 0 false] (shields autopilot_game)
    (evadeCount autopilot_game) (gameOver autopilot_game) autopilot_game.

End Scenarios.

(** ** The overlay ([Menu.jsx], [Game.jsx])

    Which screen the React layer lays over the canvas, as a function of the
    three flags of the published game state. *)

Module UI.

Inductive Screen : Type :=
  | StartMenu
  | PauseMenu
  | GameOverMenu.

(** [Menu({ gameState, ... })]: the three [if]s in their order; [None] is
    the final [return null]. *)
Definition Menu (gameStarted gamePaused gameOver : bool) : option Screen :=
  if negb gameStarted then Some StartMenu
  else if gamePaused && negb gameOver then Some PauseMenu
  else if gameOver then Some GameOverMenu
  else None.

(** [gameState.gameStarted && !gameState.gameOver && <HUD />] *)
Definition showHUD (gameStarted gameOver : bool) : bool :=
  gameStarted && negb gameOver.

(** [gameStarted && !gamePaused && !gameOver && <div className="crosshair" />] *)
Definition showCrosshair (gameStarted gamePaused gameOver : bool) : bool :=
  gameStarted && negb gamePaused && negb gameOver.

End UI.

(** ** Invariants of the running game *)

Section Invariants.
Local Open Scope R_scope.
Import GameEngine.

(** A laser that the loop has let travel on, the craft being at [uap]: not
    inside the hit radius, not beyond the maximal distance, not below the
    ground. *)
Definition in_flight (uap : Vector3.t R) (laser : Laser R) : Prop :=
  ~ Vector3.distanceTo (mesh_position laser) uap < 1.8 /\
  distance laser <= 120 /\
  0 <= Vector3.y (mesh_position laser).



(** [manual_game] with the shields down to 10 and one laser in the air,
    1 away from the craft. *)
Definition last_stand : GameEngine.t R :=
  set_combat [incoming 0 1 0 false] 10 0 false manual_game.

End Invariants.

(** ** Proof tactics *)

Ltac js_simpl :=
  cbn [lit add sub mul div neg ltb leb truthy Math_max Math_min Math_sqrt
       Math_sin Math_cos Math_PI R_number R_trig] in *.

(** Case analysis on every [Math.max] and [Math.min] in sight. *)
Ltac minmax_cases :=
  unfold Rmax, Rmin in *; repeat destruct (Rle_dec _ _); try lra.

(** * Properties

    The general statements are over exact real arithmetic ([R_number]). *)

Lemma Rltb_spec (a b : R) : reflect (a < b)%R (Rltb a b).
Proof. unfold Rltb. destruct (Rlt_dec a b); constructor; assumption. Qed.

Lemma Rleb_spec (a b : R) : reflect (a <= b)%R (Rleb a b).
Proof. unfold Rleb. destruct (Rle_dec a b); constructor; assumption. Qed.

Lemma Rltb_true (a b : R) : (a < b)%R -> Rltb a b = true.
Proof. intros Hab. destruct (Rltb_spec a b); [reflexivity | contradiction]. Qed.

Lemma Rltb_false (a b : R) : (b <= a)%R -> Rltb a b = false.
Proof. intros Hab. destruct (Rltb_spec a b); [lra | reflexivity]. Qed.

Lemma Rtruthy_true (a : R) : a <> 0%R -> Rtruthy a = true.
Proof. intros Ha. unfold Rtruthy. destruct (Req_dec_T a 0); [contradiction | reflexivity]. Qed.

(** ** The PID controller *)

Section PID_properties.
Local Open Scope R_scope.

(** The output is the clamped sum of the three terms. *)
Lemma calculate_output (p : PID.PIDController R) (e dt : R) :
  fst (PID.calculate p e dt) =
  Rmax (- PID.maxOutput p)
    (Rmin (PID.maxOutput p)
       (PID.lastP (snd (PID.calculate p e dt)) +
        PID.lastI (snd (PID.calculate p e dt)) +
        PID.lastD (snd (PID.calculate p e dt)))).
Proof. reflexivity. Qed.

(** The accumulator stays within the anti-windup band. *)
Lemma calculate_integral_bounded (p : PID.PIDController R) (e dt : R) :
  -15 <= PID.integral (snd (PID.calculate p e dt)) <= 15.
Proof. unfold PID.calculate. cbn [snd PID.integral]. js_simpl. minmax_cases. Qed.



(** The engine's controllers keep the default cap of 80. *)
Corollary engine_pid_output_bounded (gains : R * R * R)
    (p : PID.PIDController R) (e dt : R) :
  PID.maxOutput p = PID.maxOutput (GameEngine.newPID gains) ->
  -80 <= fst (PID.calculate p e dt) <= 80.
Proof.
  intros Hcap. destruct gains as [[gp gi] gd]. cbn in Hcap. js_simpl.
  rewrite calculate_output, Hcap.
  generalize (PID.lastP (snd (PID.calculate p e dt)) +
              PID.lastI (snd (PID.calculate p e dt)) +
              PID.lastD (snd (PID.calculate p e dt))).
  intros output. minmax_cases.
Qed.

(** The three terms of the first [calculate] after a [reset]. *)
Lemma reset_calculate_state (p : PID.PIDController R) (e dt : R) :
  let s := snd (PID.calculate (PID.reset p) e dt) in
  PID.lastP s = PID.kp p * e /\
  PID.lastI s = PID.ki p * Rmax (-15) (Rmin 15 (0 + e * dt)) /\
  PID.lastD s = PID.kd p * ((e - 0) / dt).
Proof.
  cbn. js_simpl. repeat split; repeat f_equal; lra.
Qed.

(** C2, as the code has it: after [reset()] the previous error is 0, so the
    derivative term of the next [calculate(e, dt)] is [kd * e / dt]; the
    integral term is [ki] times [e * dt] clamped to [-15, 15], which is
    [ki * e * dt] whenever [e * dt] is within that band. *)
Theorem reset_then_calculate_terms (p : PID.PIDController R) (e dt : R) :
  0 < dt ->
  let s := snd (PID.calculate (PID.reset p) e dt) in
  PID.lastD s = PID.kd p * (e / dt) /\
  PID.lastI s = PID.ki p * Rmax (-15) (Rmin 15 (e * dt)) /\
  (-15 <= e * dt <= 15 -> PID.lastI s = PID.ki p * e * dt).
Proof.
  intros _ s.
  destruct (reset_calculate_state p e dt) as (_ & HI & HD). fold s in HI, HD.
  rewrite HI, HD. replace (e - 0) with e by lra. replace (0 + e * dt) with (e * dt) by lra.
  repeat split. intros Hband. rewrite Rmult_assoc. f_equal. minmax_cases.
Qed.

Lemma reset_then_calculate_terms_witness :
  0 < 0.1 /\
  PID.lastD (snd (PID.calculate (PID.reset engine_pidX) 1 0.1)) = 5 * (1 / 0.1).
Proof.
  assert (Hdt : 0 < 0.1) by lra.
  split; [exact Hdt |].
  replace 5 with (PID.kd engine_pidX) by (cbn; lra).
  exact (proj1 (reset_then_calculate_terms engine_pidX 1 0.1 Hdt)).
Defined.

(** C2, as stated, fails: right after [reset()], [calculate(1, 0.1)] on the
    engine's X controller has the derivative term 50, not 0. *)
Lemma reset_then_calculate_derivative_kick :
  let s := snd (PID.calculate (PID.reset engine_pidX) 1 0.1) in
  PID.lastD s = 50 /\
  ~ (PID.lastD s = 0 /\ PID.lastI s = PID.ki engine_pidX * 1 * 0.1).
Proof.
  cbn. js_simpl. split; [lra | intros [HD _]; lra].
Qed.

(** The integral part alone fails too, once [e * dt] leaves the band. *)
Lemma reset_then_calculate_integral_clamped :
  PID.lastI (snd (PID.calculate (PID.reset engine_pidX) 200 0.1)) = 7.5 /\
  PID.ki engine_pidX * 200 * 0.1 = 10.
Proof.
  cbn. js_simpl. split; [| lra]. minmax_cases.
Qed.

(** C6, as stated, fails: nothing guards [dt].  On binary64, the engine's X
    controller right after [reset()], called with error 0 and [dt = 0],
    divides 0 by 0 and returns NaN. *)
Lemma calculate_zero_dt_not_finite :
  let pidX : PID.PIDController PrimFloat.float :=
    PID.reset (GameEngine.newPID GAME_CONFIG.PID_X) in
  let out := fst (PID.calculate pidX (lit 0) (lit 0)) in
  PrimFloat.is_nan out = true /\ F64.is_finite out = false.
Proof. vm_compute. split; reflexivity. Qed.

(** With a nonzero error the quotient is an infinity, which the output
    clamp hides but the derivative term keeps. *)
Example calculate_zero_dt_infinite_derivative :
  let pidX : PID.PIDController PrimFloat.float :=
    PID.reset (GameEngine.newPID GAME_CONFIG.PID_X) in
  let '(out, pidX) := PID.calculate pidX (lit 1) (lit 0) in
  out = lit 80 /\ PrimFloat.is_infinity (PID.lastD pidX) = true.
Proof. vm_compute. split; reflexivity. Qed.

(** A negative [dt] is used as it is: the accumulator moves against the
    error. *)
Example calculate_negative_dt :
  PID.integral (snd (PID.calculate (PID.reset engine_pidX) 1 (-1))) = -1.
Proof. cbn. js_simpl. minmax_cases. Qed.

End PID_properties.

(** ** The engine *)

Section Engine_properties.
Local Open Scope R_scope.
Import GameEngine.

(** *** What each phase of [update] leaves alone *)

Lemma laserIteration_craft (dt : R) (i : nat) (g : GameEngine.t R) :
  craft (laserIteration dt i g) = craft g.
Proof.
  unfold laserIteration. destruct (lasers g !! i) as [laser |]; [| reflexivity].
  destruct (laserStep dt (uap_position g) laser (shields g) (evadeCount g))
    as [[[laser' | |] sh] ev]; reflexivity.
Qed.

Lemma laserLoop_craft (dt : R) (n : nat) (g : GameEngine.t R) :
  craft (laserLoop dt n g) = craft g.
Proof.
  revert g. induction n as [| n IH]; intros g; cbn [laserLoop].
  - reflexivity.
  - rewrite IH. apply laserIteration_craft.
Qed.

Lemma updateAliensAndShields_craft (dt time now : R) (g : GameEngine.t R) :
  craft (updateAliensAndShields dt time now g) = craft g.
Proof.
  unfold updateAliensAndShields.
  destruct (updateAliens time now g 0 (aliens g) (lasers g)); reflexivity.
Qed.

(** The last two phases of [update] leave the craft as the physics made it. *)
Lemma update_craft (dt time now : R) (g : GameEngine.t R) :
  craft (update dt time now g) = craft (updateCraft dt (updateBoost dt g)).
Proof.
  unfold update, updateLasers.
  rewrite laserLoop_craft. apply updateAliensAndShields_craft.
Qed.

(** *** Arena bounds *)




(** *** Delta-time *)

Lemma frame_dt_below_cap (delta : R) : delta <= 0.1 -> frame_dt delta = delta.
Proof. intros Hle. unfold frame_dt. js_simpl. apply Rmin_left. lra. Qed.

Lemma animate_running (delta time now : R) (g : GameEngine.t R) :
  gameStarted g = true -> gamePaused g = false -> gameOver g = false ->
  animate delta time now g = update (frame_dt delta) time now g.
Proof. intros Hs Hp Ho. unfold animate. rewrite Hs, Hp, Ho. reflexivity. Qed.

Lemma update_autopilot_pidX (dt time now : R) (g : GameEngine.t R) :
  autopilot g = true ->
  pidX (update dt time now g) =
  snd (PID.calculate (pidX g)
         (Vector3.x (calculateEvadeTarget (updateBoost dt g))
          - Vector3.x (uap_position g)) dt).
Proof.
  intros Hauto.
  pose proof (update_craft dt time now g) as Hc. unfold craft in Hc.
  assert (Hx : pidX (update dt time now g)
               = pidX (updateCraft dt (updateBoost dt g))) by congruence.
  rewrite Hx. unfold updateCraft.
  replace (autopilot (updateBoost dt g)) with true by (symmetry; exact Hauto).
  unfold autopilotForce. cbn -[calculateEvadeTarget updateBoost checkBounds].
  destruct (checkBounds _ _). reflexivity.
Qed.

(** C6, as the code has it: the frame loop only caps the clock delta at 0.1
    and [calculate] does not guard [dt].  Whenever the delta is at most 0.1,
    zero and negative included, a running autopilot frame hands it unchanged
    to [calculate], whose derivative term divides by it. *)
Theorem animate_dt_unguarded (delta time now : R) (g : GameEngine.t R) :
  delta <= 0.1 ->
  gameStarted g = true -> gamePaused g = false -> gameOver g = false ->
  autopilot g = true ->
  let error :=
    Vector3.x (calculateEvadeTarget (updateBoost delta g))
    - Vector3.x (uap_position g) in
  frame_dt delta = delta /\
  pidX (animate delta time now g)
    = snd (PID.calculate (pidX g) error delta) /\
  PID.lastD (pidX (animate delta time now g))
    = PID.kd (pidX g) * ((error - PID.prevError (pidX g)) / delta).
Proof.
  intros Hle Hs Hp Ho Hauto error.
  rewrite (animate_running delta time now g Hs Hp Ho).
  rewrite (frame_dt_below_cap delta Hle).
  rewrite (update_autopilot_pidX delta time now g Hauto). fold error.
  repeat split.
Qed.

Lemma animate_dt_unguarded_witness :
  0 <= 0.1 /\
  frame_dt 0 = 0 /\
  pidX (animate 0 0 0 autopilot_game)
    = snd (PID.calculate (pidX autopilot_game)
             (Vector3.x (calculateEvadeTarget (updateBoost 0 autopilot_game))
              - Vector3.x (uap_position autopilot_game)) 0).
Proof.
  assert (Hle : 0 <= 0.1) by lra.
  split; [exact Hle |].
  pose proof (animate_dt_unguarded 0 0 0 autopilot_game Hle
                eq_refl eq_refl eq_refl eq_refl) as (Hdt & Hpid & _).
  exact (conj Hdt Hpid).
Defined.

(** *** Manual flight *)

(** C5, as the code has it: in manual mode with no vertical key held, the
    vertical force is the sum of the gravity and hover constants, and by
    configuration that sum is -1: a small downward bias. *)
Theorem manual_idle_vertical_force (g : GameEngine.t R) (thrust : R) :
  key g "Space" = false ->
  key g "ShiftLeft" = false ->
  key g "ShiftRight" = false ->
  Vector3.y (manualForce g thrust)
    = GAME_CONFIG.UAP_GRAVITY + GAME_CONFIG.UAP_HOVER_FORCE /\
  GAME_CONFIG.UAP_GRAVITY + GAME_CONFIG.UAP_HOVER_FORCE = -1.
Proof.
  intros Hspace Hleft Hright. unfold manualForce.
  rewrite Hspace, Hleft, Hright. cbn [orb Vector3.y].
  unfold GAME_CONFIG.UAP_GRAVITY, GAME_CONFIG.UAP_HOVER_FORCE. js_simpl.
  split; lra.
Qed.

Lemma manual_idle_vertical_force_witness :
  Vector3.y (manualForce manual_game GAME_CONFIG.UAP_THRUST)
    = GAME_CONFIG.UAP_GRAVITY + GAME_CONFIG.UAP_HOVER_FORCE /\
  GAME_CONFIG.UAP_GRAVITY + GAME_CONFIG.UAP_HOVER_FORCE = -1.
Proof.
  exact (manual_idle_vertical_force manual_game GAME_CONFIG.UAP_THRUST
           eq_refl eq_refl eq_refl).
Defined.

(** In manual mode [update] applies exactly that force. *)
Lemma updateCraft_manual_velocity (dt : R) (g : GameEngine.t R) :
  autopilot g = false ->
  let thrust := if isBoosting g then GAME_CONFIG.UAP_BOOST_THRUST
                else GAME_CONFIG.UAP_THRUST in
  let v := Vector3.multiplyScalar
             (Vector3.add (uapVelocity g)
                (Vector3.multiplyScalar (manualForce g thrust) dt))
             GAME_CONFIG.UAP_DAMPING in
  craft (updateCraft dt g) =
  (fst (checkBounds (Vector3.add (uap_position g) (Vector3.multiplyScalar v dt)) v),
   snd (checkBounds (Vector3.add (uap_position g) (Vector3.multiplyScalar v dt)) v),
   pidX g, pidY g, pidZ g).
Proof.
  intros Hman thrust v. unfold updateCraft, craft. rewrite Hman.
  fold thrust. fold v. destruct (checkBounds _ v). reflexivity.
Qed.

Lemma manual_game_key (code : string) : key manual_game code = false.
Proof. unfold key. cbn [manual_game start init keys]. rewrite lookup_empty. reflexivity. Qed.

(** C5, as stated, fails: with no key held the vertical force on the craft
    is -1, which is not an upward bias. *)
Lemma manual_idle_force_not_upward :
  Vector3.y (manualForce manual_game GAME_CONFIG.UAP_THRUST) = -1 /\
  ~ 0 < GAME_CONFIG.UAP_GRAVITY + GAME_CONFIG.UAP_HOVER_FORCE.
Proof.
  unfold manualForce. rewrite !manual_game_key. cbn [orb Vector3.y].
  unfold GAME_CONFIG.UAP_GRAVITY, GAME_CONFIG.UAP_HOVER_FORCE. js_simpl.
  split; lra.
Qed.

(** *** The threat model *)

Lemma sqrt_lower (b s : R) : 0 <= b -> b * b <= s -> b <= sqrt s.
Proof.
  intros Hb Hs. rewrite <- (sqrt_square b Hb). apply sqrt_le_1_alt. exact Hs.
Qed.

Lemma sqrt_upper (b s : R) : 0 <= b -> 0 <= s -> s < b * b -> sqrt s < b.
Proof.
  intros Hb Hs Hlt. rewrite <- (sqrt_square b Hb).
  apply sqrt_lt_1_alt. split; assumption.
Qed.

Lemma length_multiplyScalar_2 (v : Vector3.t R) :
  Vector3.length (Vector3.multiplyScalar v 2) = 2 * Vector3.length v.
Proof.
  unfold Vector3.length, Vector3.multiplyScalar. cbn [Vector3.x Vector3.y Vector3.z].
  js_simpl.
  replace (Vector3.x v * 2 * (Vector3.x v * 2)
           + Vector3.y v * 2 * (Vector3.y v * 2)
           + Vector3.z v * 2 * (Vector3.z v * 2))
    with (2 * 2 * (Vector3.x v * Vector3.x v + Vector3.y v * Vector3.y v
                   + Vector3.z v * Vector3.z v)) by lra.
  rewrite sqrt_mult_alt by lra. rewrite sqrt_square by lra. reflexivity.
Qed.

(** A threat out of range leaves the accumulator alone. *)
Lemma avoidLaser_far (uap d : Vector3.t R) (laser : Laser R) :
  20 <= Vector3.length (Vector3.subVectors uap (mesh_position laser)) ->
  avoidLaser uap d laser = d.
Proof.
  intros Hfar. unfold avoidLaser. js_simpl.
  rewrite Rltb_false by lra. reflexivity.
Qed.

Lemma avoidAlien_far (uap d : Vector3.t R) (alien : Alien R) :
  15 <= Vector3.length (Vector3.subVectors uap (position alien)) ->
  avoidAlien uap d alien = d.
Proof.
  intros Hfar. unfold avoidAlien. js_simpl.
  destruct (alive alien); cbn [negb]; [| reflexivity].
  rewrite Rltb_false by lra. reflexivity.
Qed.

Lemma accumulateDanger_far (g : GameEngine.t R) :
  Forall (fun laser =>
    20 <= Vector3.length (Vector3.subVectors (uap_position g) (mesh_position laser)))
    (lasers g) ->
  Forall (fun alien =>
    15 <= Vector3.length (Vector3.subVectors (uap_position g) (position alien)))
    (aliens g) ->
  accumulateDanger g = Vector3.zero.
Proof.
  intros Hlasers Haliens. unfold accumulateDanger.
  generalize (@Vector3.zero R _). intros d.
  induction Hlasers as [| laser ls Hfar _ IHl]; cbn [fold_left].
  - induction Haliens as [| alien als Hfar _ IHa]; cbn [fold_left].
    + reflexivity.
    + rewrite avoidAlien_far by exact Hfar. exact IHa.
  - rewrite avoidLaser_far by exact Hfar. exact IHl.
Qed.

(** The target in terms of the accumulated danger: the clamped avoidance
    point, and on top of it the patrol when the doubled danger is short. *)
Lemma calculateEvadeTarget_cases (g : GameEngine.t R) :
  let p := uap_position g in
  let d := accumulateDanger g in
  let t := survivalTime g in
  let cx := Rmax (-42) (Rmin 42 (Vector3.x p + Vector3.x d * 2)) in
  let cy := Rmax 5 (Rmin 25 (Vector3.y p + Vector3.y d * 2
                             + (15 - Vector3.y p) * 0.1)) in
  let cz := Rmax (-42) (Rmin 42 (Vector3.z p + Vector3.z d * 2)) in
  calculateEvadeTarget g =
  if Rltb (2 * Vector3.length d) 1
  then Vector3.mk (cx + sin (t * 0.5) * 10) (10 + sin (t * 0.3) * 5)
                  (cz + cos (t * 0.7) * 10)
  else Vector3.mk cx cy cz.
Proof.
  intros p d t cx cy cz. unfold calculateEvadeTarget. fold d. fold p. fold t.
  change (@lit R R_number 2) with (Q2R 2).
  replace (Q2R 2) with 2 by lra.
  rewrite length_multiplyScalar_2.
  unfold GAME_CONFIG.WORLD_BOUNDS_x, GAME_CONFIG.WORLD_BOUNDS_z.
  cbn [Vector3.add Vector3.multiplyScalar Vector3.x Vector3.y Vector3.z].
  js_simpl.
  replace (- Q2R 60 * 0.7) with (-42) by lra.
  replace (Q2R 60 * 0.7) with 42 by lra.
  replace (Q2R 1) with 1 by lra. replace (Q2R 5) with 5 by lra.
  replace (Q2R 10) with 10 by lra. replace (Q2R 15) with 15 by lra.
  replace (Q2R 25) with 25 by lra.
  reflexivity.
Qed.

(** C3, as the code has it: the altitude of the target is always within
    [5, 25]; its X and Z are within 70% of the arena bounds (±42) unless
    the patrol applies, and the patrol adds up to 10 on top of the clamped
    value, so that X and Z are always within ±52. *)
Theorem evade_target_bounds (g : GameEngine.t R) :
  let target := calculateEvadeTarget g in
  5 <= Vector3.y target <= 25 /\
  -52 <= Vector3.x target <= 52 /\
  -52 <= Vector3.z target <= 52 /\
  (2 * Vector3.length (accumulateDanger g) < 1 \/
   (-42 <= Vector3.x target <= 42 /\ -42 <= Vector3.z target <= 42)).
Proof.
  intros target. subst target. rewrite calculateEvadeTarget_cases.
  destruct (Rltb_spec (2 * Vector3.length (accumulateDanger g)) 1) as [Hsafe | Hthreat];
    cbn [Vector3.x Vector3.y Vector3.z].
  - pose proof (SIN_bound (survivalTime g * 0.5)) as Hsx.
    pose proof (SIN_bound (survivalTime g * 0.3)) as Hsy.
    pose proof (COS_bound (survivalTime g * 0.7)) as Hcz.
    repeat split; try (left; exact Hsafe); minmax_cases.
  - repeat split; try (right; split); minmax_cases.
Qed.

Lemma createAliens_from_on_ring (i n : nat) :
  Forall on_ring (createAliens_from (fun _ => 0) i n).
Proof.
  revert i. induction n as [| n IH]; intros i; cbn [createAliens_from].
  - constructor.
  - constructor; [| apply IH].
    unfold on_ring. cbn [position Vector3.x Vector3.y Vector3.z]. js_simpl.
    set (angle := index i / index GAME_CONFIG.ALIEN_COUNT * PI * Q2R 2).
    pose proof (sin2_cos2 angle) as Hunit. unfold Rsqr in Hunit.
    split; [nra | lra].
Qed.

(** No threat is near the craft at the centre or at the east wall of the
    arena of [autopilot_game]. *)
Lemma no_danger_at_centre (p : Vector3.t R) (time : R) :
  Vector3.x p = 0 -> Vector3.y p = 10 -> Vector3.z p = 0 ->
  accumulateDanger (craft_at p time autopilot_game) = Vector3.zero.
Proof.
  intros Hpx Hpy Hpz.
  apply accumulateDanger_far; [constructor |].
  cbn [craft_at aliens uap_position autopilot_game start init].
  eapply Forall_impl; [apply createAliens_from_on_ring |].
  intros alien [Hring Hy]. cbn beta.
  unfold Vector3.length, Vector3.subVectors.
  cbn [Vector3.x Vector3.y Vector3.z]. js_simpl.
  apply sqrt_lower; [lra |]. rewrite Hy, Hpx, Hpy, Hpz. nra.
Qed.

Lemma no_danger_at_east_wall (time : R) :
  accumulateDanger (craft_at (Vector3.mk 60 10 0) time autopilot_game)
  = Vector3.zero.
Proof.
  apply accumulateDanger_far; [constructor |].
  cbn [craft_at aliens uap_position autopilot_game start init].
  eapply Forall_impl; [apply createAliens_from_on_ring |].
  intros alien [Hring Hy]. cbn beta.
  unfold Vector3.length, Vector3.subVectors.
  cbn [Vector3.x Vector3.y Vector3.z]. js_simpl.
  apply sqrt_lower; [lra |]. rewrite Hy.
  assert (Hx : Vector3.x (position alien) <= 25) by nra.
  nra.
Qed.

Lemma length_zero : Vector3.length (@Vector3.zero R _) = 0.
Proof.
  unfold Vector3.length, Vector3.zero. cbn [Vector3.x Vector3.y Vector3.z].
  js_simpl. replace (Q2R 0 * Q2R 0 + Q2R 0 * Q2R 0 + Q2R 0 * Q2R 0) with 0 by lra.
  apply sqrt_0.
Qed.

(** With no threat in range the target is the patrol around the clamped
    position of the craft. *)
Lemma calculateEvadeTarget_no_danger (g : GameEngine.t R) :
  accumulateDanger g = Vector3.zero ->
  calculateEvadeTarget g =
  Vector3.mk
    (Rmax (-42) (Rmin 42 (Vector3.x (uap_position g)))
     + sin (survivalTime g * 0.5) * 10)
    (10 + sin (survivalTime g * 0.3) * 5)
    (Rmax (-42) (Rmin 42 (Vector3.z (uap_position g)))
     + cos (survivalTime g * 0.7) * 10).
Proof.
  intros Hzero. rewrite calculateEvadeTarget_cases, Hzero, length_zero.
  rewrite Rltb_true by lra.
  cbn [Vector3.zero Vector3.x Vector3.y Vector3.z]. js_simpl.
  repeat f_equal; lra.
Qed.

(** C3, as stated, fails: with the craft at the east wall and no threat in
    range, at session time [PI] the target has X = 52, beyond the soft
    bound 42. *)
Lemma evade_target_beyond_soft_bound :
  let g := craft_at (Vector3.mk 60 10 0) PI autopilot_game in
  Vector3.x (calculateEvadeTarget g) = 52 /\
  ~ (-42 <= Vector3.x (calculateEvadeTarget g) <= 42).
Proof.
  intros g. subst g.
  rewrite (calculateEvadeTarget_no_danger _ (no_danger_at_east_wall PI)).
  cbn [craft_at uap_position survivalTime Vector3.x].
  replace (PI * 0.5) with (PI / 2) by lra. rewrite sin_PI2.
  rewrite (Rmin_left 42 60) by lra. rewrite Rmax_right by lra.
  split; [lra | intros [_ Hle]; lra].
Qed.

(** C4, as the code has it: whenever the accumulated danger is shorter than
    0.5 (the vector is doubled in place before its length is compared with
    1), the altitude of the target is overridden by the patrol,
    [10 + 5 sin(0.3 t)], a function of the session time alone, while X and Z
    are the clamped avoidance point of the craft with the patrol offsets
    [10 sin(0.5 t)] and [10 cos(0.7 t)] added to it. *)
Theorem patrol_target (g : GameEngine.t R) :
  Vector3.length (accumulateDanger g) < 0.5 ->
  let p := uap_position g in
  let d := accumulateDanger g in
  let t := survivalTime g in
  calculateEvadeTarget g =
  Vector3.mk
    (Rmax (-42) (Rmin 42 (Vector3.x p + Vector3.x d * 2)) + sin (t * 0.5) * 10)
    (10 + sin (t * 0.3) * 5)
    (Rmax (-42) (Rmin 42 (Vector3.z p + Vector3.z d * 2)) + cos (t * 0.7) * 10).
Proof.
  intros Hshort p d t. rewrite calculateEvadeTarget_cases.
  fold d. rewrite Rltb_true by (unfold d; lra). reflexivity.
Qed.

Lemma patrol_target_witness :
  Vector3.length (accumulateDanger autopilot_game) < 0.5 /\
  Vector3.y (calculateEvadeTarget autopilot_game) = 10 + sin (0 * 0.3) * 5.
Proof.
  assert (Hshort : Vector3.length (accumulateDanger autopilot_game) < 0.5).
  { change autopilot_game
      with (craft_at (uap_position autopilot_game) (survivalTime autopilot_game)
              autopilot_game).
    rewrite no_danger_at_centre, length_zero by (cbn; lra). lra. }
  split; [exact Hshort |].
  rewrite (patrol_target autopilot_game Hshort).
  cbn [Vector3.y]. unfold autopilot_game at 1. cbn [start init survivalTime].
  js_simpl. repeat f_equal; lra.
Defined.

(** C4, as stated, fails: at the same session time and with no threat in
    range in either case, the target of the craft at the centre and the
    target of the craft at the east wall differ in X. *)
Lemma patrol_target_depends_on_position :
  let g1 := craft_at (Vector3.mk 0 10 0) 0 autopilot_game in
  let g2 := craft_at (Vector3.mk 60 10 0) 0 autopilot_game in
  Vector3.length (accumulateDanger g1) < 1 /\
  Vector3.length (accumulateDanger g2) < 1 /\
  survivalTime g1 = survivalTime g2 /\
  Vector3.x (calculateEvadeTarget g1) = 0 /\
  Vector3.x (calculateEvadeTarget g2) = 42 /\
  calculateEvadeTarget g1 <> calculateEvadeTarget g2.
Proof.
  intros g1 g2.
  assert (H1 : Vector3.x (calculateEvadeTarget g1) = 0).
  { subst g1.
    rewrite (calculateEvadeTarget_no_danger _
               (no_danger_at_centre (Vector3.mk 0 10 0) 0 eq_refl eq_refl eq_refl)).
    cbn [craft_at uap_position survivalTime Vector3.x].
    rewrite Rmult_0_l, sin_0. minmax_cases. }
  assert (H2 : Vector3.x (calculateEvadeTarget g2) = 42).
  { subst g2. rewrite (calculateEvadeTarget_no_danger _ (no_danger_at_east_wall 0)).
    cbn [craft_at uap_position survivalTime Vector3.x].
    rewrite Rmult_0_l, sin_0. minmax_cases. }
  repeat split.
  - subst g1. rewrite no_danger_at_centre, length_zero by reflexivity. lra.
  - subst g2. rewrite no_danger_at_east_wall, length_zero. lra.
  - exact H1.
  - exact H2.
  - intros Heq. rewrite Heq in H1. lra.
Qed.

(** **** The threshold of the patrol *)

Lemma fold_avoidAlien_far (uap d : Vector3.t R) (als : list (Alien R)) :
  Forall (fun alien =>
    15 <= Vector3.length (Vector3.subVectors uap (position alien))) als ->
  fold_left (avoidAlien uap) als d = d.
Proof.
  intros Hfar. induction Hfar as [| alien als Hfar _ IH]; cbn [fold_left].
  - reflexivity.
  - rewrite avoidAlien_far by exact Hfar. exact IH.
Qed.

Lemma avoidLaser_near (uap d : Vector3.t R) (laser : Laser R) :
  let v := Vector3.subVectors uap (mesh_position laser) in
  0 < Vector3.length v < 20 ->
  avoidLaser uap d laser =
  Vector3.add d
    (Vector3.multiplyScalar
       (Vector3.multiplyScalar v (1 / Vector3.length v))
       (20 / (Vector3.length v + 1))).
Proof.
  intros v [Hpos Hnear]. unfold avoidLaser. fold v. js_simpl.
  rewrite Rltb_true by lra.
  unfold Vector3.normalize, Vector3.divideScalar. js_simpl.
  rewrite Rtruthy_true by lra.
  replace (Q2R 1) with 1 by lra. replace (Q2R 20) with 20 by lra.
  reflexivity.
Qed.

Lemma distant_laser_danger :
  accumulateDanger distant_laser_game = Vector3.mk 0 0 (- (20 / 20.5)).
Proof.
  unfold accumulateDanger.
  cbn [distant_laser_game set_combat lasers aliens uap_position
       autopilot_game start init fold_left].
  rewrite fold_avoidAlien_far.
  2:{ eapply Forall_impl; [apply createAliens_from_on_ring |].
      intros alien [Hring Hy]. cbn beta.
      unfold Vector3.length, Vector3.subVectors.
      cbn [Vector3.x Vector3.y Vector3.z]. js_simpl.
      apply sqrt_lower; [lra |]. rewrite Hy. nra. }
  assert (Hlen : Vector3.length
            (Vector3.subVectors (Vector3.mk (Q2R 0) (Q2R 10) (Q2R 0))
               (mesh_position (incoming 0 19.5 0 false))) = 19.5).
  { unfold Vector3.length, Vector3.subVectors, incoming.
    cbn [mesh_position Vector3.x Vector3.y Vector3.z]. js_simpl.
    replace (_ + _ + _) with (19.5 * 19.5) by lra. apply sqrt_square. lra. }
  rewrite avoidLaser_near by (cbn zeta; js_simpl; rewrite Hlen; lra).
  js_simpl. rewrite Hlen.
  unfold Vector3.add, Vector3.multiplyScalar, Vector3.subVectors,
    Vector3.zero, incoming.
  cbn [mesh_position Vector3.x Vector3.y Vector3.z]. js_simpl.
  f_equal; lra.
Qed.

(** The accumulator is doubled before its length is compared with 1: a
    single laser 19.5 away gives an accumulated danger of length
    [20 / 20.5], below 1, and yet the altitude of the target is the clamped
    one, 10.5, not the patrol's. *)
Example patrol_threshold_is_doubled :
  Vector3.length (accumulateDanger distant_laser_game) < 1 /\
  Vector3.y (calculateEvadeTarget distant_laser_game) = 10.5 /\
  10 + sin (survivalTime distant_laser_game * 0.3) * 5 = 10.
Proof.
  assert (Hlen : Vector3.length (accumulateDanger distant_laser_game)
                 = 20 / 20.5).
  { rewrite distant_laser_danger. unfold Vector3.length.
    cbn [Vector3.x Vector3.y Vector3.z]. js_simpl.
    replace (_ + _ + _) with (20 / 20.5 * (20 / 20.5)) by lra.
    apply sqrt_square. lra. }
  split; [rewrite Hlen; lra |]. split.
  - rewrite calculateEvadeTarget_cases, Hlen.
    rewrite Rltb_false by lra. rewrite distant_laser_danger.
    cbn [distant_laser_game set_combat uap_position autopilot_game start init
         Vector3.x Vector3.y Vector3.z].
    js_simpl. minmax_cases.
  - cbn [distant_laser_game set_combat survivalTime autopilot_game start init].
    js_simpl. replace (Q2R 0 * 0.3) with 0 by lra. rewrite sin_0. lra.
Qed.

(** *** Restart *)

Lemma resetAliens_shotInterval (rnd : nat -> R) (k : nat) (als : list (Alien R)) :
  map shotInterval (resetAliens rnd k als) = map shotInterval als.
Proof.
  revert k. induction als as [| a als IH]; intros k; cbn [resetAliens map].
  - reflexivity.
  - rewrite IH. reflexivity.
Qed.

Lemma resetAliens_lastShot (rnd : nat -> R) (k : nat) (als : list (Alien R)) :
  map lastShot (resetAliens rnd k als)
  = map (fun i => rnd i * 2000) (seq k (length als)).
Proof.
  revert k. induction als as [| a als IH]; intros k;
    cbn [resetAliens map length seq].
  - reflexivity.
  - rewrite IH. f_equal. cbn [resetAlien lastShot]. js_simpl. lra.
Qed.

Lemma resetAliens_alive (rnd : nat -> R) (k : nat) (als : list (Alien R)) :
  Forall (fun a => alive a = true) (resetAliens rnd k als).
Proof.
  revert k. induction als as [| a als IH]; intros k; cbn [resetAliens];
    constructor; [reflexivity | apply IH].
Qed.

(** C8, as the code has it: after [restart()], whatever the state before,
    the shields are [SHIELD_MAX], the evade count and the survival time are
    0, no laser is left, the three controllers are reset, and every alien is
    alive with its [lastShot] drawn anew; its [shotInterval] is the one it
    had. *)
Theorem restart_resets (rnd : nat -> R) (g : GameEngine.t R) :
  let g' := restart rnd g in
  shields g' = GAME_CONFIG.SHIELD_MAX /\
  evadeCount g' = 0 /\
  survivalTime g' = 0 /\
  lasers g' = [] /\
  pidX g' = PID.reset (pidX g) /\
  pidY g' = PID.reset (pidY g) /\
  pidZ g' = PID.reset (pidZ g) /\
  Forall (fun a => alive a = true) (aliens g') /\
  map lastShot (aliens g')
    = map (fun i => rnd i * 2000) (seq 0 (length (aliens g))) /\
  map shotInterval (aliens g') = map shotInterval (aliens g).
Proof.
  cbn. js_simpl. repeat split; try lra.
  - apply resetAliens_alive.
  - apply resetAliens_lastShot.
  - apply resetAliens_shotInterval.
Qed.

(** What a reset controller holds. *)
Lemma reset_clears (p : PID.PIDController R) :
  PID.integral (PID.reset p) = 0 /\ PID.prevError (PID.reset p) = 0 /\
  PID.lastP (PID.reset p) = 0 /\ PID.lastI (PID.reset p) = 0 /\
  PID.lastD (PID.reset p) = 0 /\
  PID.kp (PID.reset p) = PID.kp p /\ PID.ki (PID.reset p) = PID.ki p /\
  PID.kd (PID.reset p) = PID.kd p /\
  PID.maxOutput (PID.reset p) = PID.maxOutput p.
Proof. cbn. js_simpl. repeat split; lra. Qed.

(** C8, as stated, fails: the aliens of [autopilot_game] have the shot
    interval 2500; after a [restart()] whose every random draw is 0.5 they
    still have it, while any interval drawn then would be 3500. *)
Lemma restart_keeps_shotInterval :
  let rnd := fun _ : nat => 0.5 in
  let g' := restart rnd autopilot_game in
  map shotInterval (aliens g') = [2500; 2500; 2500; 2500; 2500] /\
  ~ Forall (fun a => exists k : nat,
              shotInterval a
              = GAME_CONFIG.ALIEN_FIRE_RATE_MIN
                + rnd k * (GAME_CONFIG.ALIEN_FIRE_RATE_MAX
                           - GAME_CONFIG.ALIEN_FIRE_RATE_MIN))
      (aliens g').
Proof.
  intros rnd g'. subst g'. split.
  - cbn [restart aliens]. rewrite resetAliens_shotInterval.
    cbn. js_simpl.
    unfold GAME_CONFIG.ALIEN_FIRE_RATE_MIN, GAME_CONFIG.ALIEN_FIRE_RATE_MAX.
    js_simpl. repeat f_equal; lra.
  - intros Hall. cbn in Hall. apply Forall_inv in Hall.
    destruct Hall as [k Hk]. subst rnd.
    unfold GAME_CONFIG.ALIEN_FIRE_RATE_MIN, GAME_CONFIG.ALIEN_FIRE_RATE_MAX in Hk.
    cbn [resetAlien shotInterval] in Hk. js_simpl. lra.
Qed.

End Engine_properties.

(** ** The laser loop

    These facts are about the shape of the loop only and hold for any
    arithmetic. *)

Section Laser_loop.
Context {num : Type} `{Number num} `{Trig num}.
Import GameEngine.

Lemma set_combat_same (g : GameEngine.t num) :
  set_combat (lasers g) (shields g) (evadeCount g) (gameOver g) g = g.
Proof. destruct g; reflexivity. Qed.

Lemma insert_middle {A : Type} (l1 l2 : list A) (x y : A) :
  <[length l1 := y]> (l1 ++ x :: l2) = l1 ++ y :: l2.
Proof. induction l1 as [| a l1 IH]; cbn; [reflexivity | f_equal; exact IH]. Qed.

(** Sweeping a concatenation: the right part first. *)
Lemma sweep_app (dt : num) (uap : Vector3.t num) (a b : list (Laser num))
    (sh ev : num) (over : bool) :
  sweep dt uap (a ++ b) sh ev over =
  let '(b', sh1, ev1, over1) := sweep dt uap b sh ev over in
  let '(a', sh2, ev2, over2) := sweep dt uap a sh1 ev1 over1 in
  (a' ++ b', sh2, ev2, over2).
Proof.
  induction a as [| l a IH]; cbn [sweep app].
  - destruct (sweep dt uap b sh ev over) as [[[b' sh1] ev1] over1]. reflexivity.
  - rewrite IH.
    destruct (sweep dt uap b sh ev over) as [[[b' sh1] ev1] over1].
    destruct (sweep dt uap a sh1 ev1 over1) as [[[a' sh2] ev2] over2].
    destruct (laserStep dt uap l sh2 ev2) as [[[l' | |] sh3] ev3]; reflexivity.
Qed.

(** Running the loop over the indices below [length pre] sweeps [pre] and
    leaves the lasers after it in place. *)
Lemma laserLoop_sweep (dt : num) (pre suf : list (Laser num))
    (g : GameEngine.t num) :
  lasers g = pre ++ suf ->
  laserLoop dt (length pre) g =
  let '(pre', sh, ev, over) :=
    sweep dt (uap_position g) pre (shields g) (evadeCount g) (gameOver g) in
  set_combat (pre' ++ suf) sh ev over g.
Proof.
  revert suf g. induction pre as [| l pre IH] using rev_ind; intros suf g Hls.
  - cbn [length laserLoop sweep app]. cbn [app] in Hls. rewrite <- Hls.
    symmetry. apply set_combat_same.
  - rewrite length_app. cbn [length]. rewrite Nat.add_1_r. cbn [laserLoop].
    rewrite sweep_app. cbn [sweep].
    rewrite <- app_assoc in Hls. cbn [app] in Hls.
    unfold laserIteration.
    rewrite Hls, list_lookup_middle by reflexivity.
    destruct (laserStep dt (uap_position g) l (shields g) (evadeCount g))
      as [[[l' | |] sh1] ev1].
    + rewrite (IH (l' :: suf)).
      * cbn [set_combat uap_position shields evadeCount gameOver].
        destruct (sweep dt (uap_position g) pre sh1 ev1 (gameOver g))
          as [[[pre' sh2] ev2] over2].
        rewrite <- app_assoc. reflexivity.
      * cbn [set_combat lasers]. apply insert_middle.
    + rewrite (IH suf).
      * cbn [set_combat uap_position shields evadeCount gameOver].
        destruct (sweep dt (uap_position g) pre sh1 ev1 _)
          as [[[pre' sh2] ev2] over2].
        rewrite app_nil_r. reflexivity.
      * cbn [set_combat lasers]. apply delete_middle.
    + rewrite (IH suf).
      * cbn [set_combat uap_position shields evadeCount gameOver].
        destruct (sweep dt (uap_position g) pre sh1 ev1 (gameOver g))
          as [[[pre' sh2] ev2] over2].
        rewrite app_nil_r. reflexivity.
      * cbn [set_combat lasers]. apply delete_middle.
Qed.

(** The laser loop of a frame runs the loop body once on every laser, from
    the last to the first. *)
Lemma updateLasers_sweep (dt : num) (g : GameEngine.t num) :
  updateLasers dt g =
  let '(ls, sh, ev, over) :=
    sweep dt (uap_position g) (lasers g) (shields g) (evadeCount g)
      (gameOver g) in
  set_combat ls sh ev over g.
Proof.
  unfold updateLasers.
  rewrite (laserLoop_sweep dt (lasers g) [] g) by (symmetry; apply app_nil_r).
  destruct (sweep dt _ _ _ _ _) as [[[ls sh] ev] over].
  rewrite app_nil_r. reflexivity.
Qed.

(** The two phases before the laser loop leave the combat state alone,
    but for the regenerated shields and the lasers fired in the frame. *)
Lemma updateCraft_combat (dt : num) (g : GameEngine.t num) :
  let g1 := updateCraft dt (updateBoost dt g) in
  aliens g1 = aliens g /\ lasers g1 = lasers g /\ shields g1 = shields g /\
  evadeCount g1 = evadeCount g /\ gameOver g1 = gameOver g /\
  autopilot g1 = autopilot g.
Proof.
  cbn zeta. unfold updateCraft.
  destruct (if autopilot (updateBoost dt g) then _ else _)
    as [[[force px] py] pz].
  destruct (checkBounds _ _) as [position velocity].
  repeat split.
Qed.

(** A whole frame, seen from the lasers: after the physics has moved the
    craft, the shields have regenerated and the aliens have fired, the loop
    body runs once on every laser. *)
Lemma update_sweep (dt time now : num) (g : GameEngine.t num) :
  let g1 := updateCraft dt (updateBoost dt g) in
  let fired := snd (updateAliens time now g1 0 (aliens g) (lasers g)) in
  let '(ls, sh, ev, over) :=
    sweep dt (uap_position g1) fired (regenShields dt (shields g))
      (evadeCount g) (gameOver g) in
  lasers (update dt time now g) = ls /\
  shields (update dt time now g) = sh /\
  evadeCount (update dt time now g) = ev /\
  gameOver (update dt time now g) = over.
Proof.
  intros g1 fired. unfold update. rewrite updateLasers_sweep.
  fold g1. unfold updateAliensAndShields.
  destruct (updateCraft_combat dt g) as (Hals & Hls & Hsh & Hev & Hover & _).
  fold g1 in Hals, Hls, Hsh, Hev, Hover.
  rewrite Hals, Hls, Hsh, Hev, Hover.
  subst fired.
  destruct (updateAliens time now g1 0 (aliens g) (lasers g)) as [als ls0].
  cbn [snd uap_position lasers shields evadeCount gameOver].
  destruct (sweep dt (uap_position g1) ls0 (regenShields dt (shields g))
              (evadeCount g) (gameOver g)) as [[[ls sh] ev] over].
  repeat split.
Qed.

(** What becomes of a laser does not depend on the shields or on the evade
    count. *)
Lemma laserStep_fate (dt : num) (uap : Vector3.t num) (laser : Laser num)
    (sh ev sh' ev' : num) :
  fst (fst (laserStep dt uap laser sh ev))
  = fst (fst (laserStep dt uap laser sh' ev')).
Proof.
  unfold laserStep.
  destruct (ltb (Vector3.distanceTo (mesh_position (advance dt laser)) uap) _);
    [reflexivity |].
  destruct (nearMiss _ (advance dt laser));
    [destruct (isOld (set_counted true (advance dt laser)))
    | destruct (isOld (advance dt laser))]; reflexivity.
Qed.

End Laser_loop.

(** ** Projectiles *)

Section Projectile_properties.
Local Open Scope R_scope.
Import GameEngine.


(** The loop body on a laser inside the hit radius. *)
Lemma laserStep_hit (dt : R) (uap : Vector3.t R) (laser : Laser R) (sh ev : R) :
  distanceToUAP dt uap laser < 1.8 ->
  laserStep dt uap laser sh ev = (Collided, Rmax 0 (sh - 18), ev).
Proof.
  intros Hhit. unfold laserStep. fold (distanceToUAP dt uap laser). js_simpl.
  rewrite Rltb_true by exact Hhit.
  unfold GAME_CONFIG.LASER_DAMAGE. js_simpl. repeat f_equal; lra.
Qed.

(** The loop body on a laser outside the hit radius. *)
Lemma laserStep_miss (dt : R) (uap : Vector3.t R) (laser : Laser R) (sh ev : R) :
  ~ distanceToUAP dt uap laser < 1.8 ->
  let credited := nearMiss (distanceToUAP dt uap laser) (advance dt laser) in
  laserStep dt uap laser sh ev =
  (if isOld (advance dt laser) then Expired
   else Traveling (if credited then set_counted true (advance dt laser)
                   else advance dt laser),
   sh,
   if credited then ev + 1 else ev).
Proof.
  intros Hmiss credited. unfold laserStep.
  fold (distanceToUAP dt uap laser). fold credited. js_simpl.
  rewrite Rltb_false by lra.
  destruct credited.
  - change (isOld (set_counted true (advance dt laser)))
      with (isOld (advance dt laser)).
    destruct (isOld (advance dt laser)); repeat f_equal; lra.
  - destruct (isOld (advance dt laser)); reflexivity.
Qed.







(** *** A laser flying along -Z at the height of the craft *)







(** The end-to-end scenario of the specification, on binary64: the craft
    at (0, 10, 0) with shields 100, a laser created at (0, 10, 20) and aimed
    at the craft, frames of 1/60 s.  It is credited as an evade in frame 17
    and collides in frame 19, leaving the shields at 82. *)
Example head_on_laser_binary64 :
  let uap : Vector3.t PrimFloat.float :=
    Vector3.mk (lit 0) (lit 10) (lit 0) in
  let laser := createLaser (Vector3.mk (lit 0) (lit 10) (lit 20)) uap in
  let frame : Frame := (div (lit 1) (lit 60), uap) in
  snd (flight (repeat frame 16) laser (lit 100) (lit 0)) = lit 0 /\
  snd (flight (repeat frame 17) laser (lit 100) (lit 0)) = lit 1 /\
  flight (repeat frame 19) laser (lit 100) (lit 0) = (Collided, lit 82, lit 1).
Proof. vm_compute. repeat split. Qed.

End Projectile_properties.

(** * Further properties *)

(** ** The controller over several calls *)

Section PID_history.
Local Open Scope R_scope.

(** With a constant error pushing upwards, the accumulator after [n] calls
    is its start plus [n] steps of [e * dt], capped at 15: it never
    decreases and never passes the anti-windup bound. *)
Theorem integral_saturates (p : PID.PIDController R) (e dt : R) (n : nat) :
  -15 <= PID.integral p <= 15 ->
  0 <= e * dt ->
  PID.integral (Nat.iter n (fun q => snd (PID.calculate q e dt)) p)
  = Rmin 15 (PID.integral p + INR n * (e * dt)).
Proof.
  intros Hband Hstep. induction n as [| n IH].
  - cbn [INR]. rewrite Rmult_0_l, Rplus_0_r.
    rewrite Rmin_right by lra. reflexivity.
  - rewrite Nat.iter_succ.
    set (q := Nat.iter n (fun q => snd (PID.calculate q e dt)) p) in *.
    unfold PID.calculate. cbn [snd PID.integral].
    rewrite IH, S_INR. js_simpl.
    pose proof (pos_INR n) as Hn.
    assert (Hacc : 0 <= INR n * (e * dt)) by (apply Rmult_le_pos; lra).
    replace ((INR n + 1) * (e * dt)) with (INR n * (e * dt) + e * dt) by ring.
    generalize dependent (INR n * (e * dt)). intros acc _ Hacc.
    minmax_cases.
Qed.

Lemma integral_saturates_witness :
  PID.integral (Nat.iter 200 (fun q => snd (PID.calculate q 1 0.1)) engine_pidX)
  = 15.
Proof.
  assert (Hband : -15 <= PID.integral engine_pidX <= 15) by (cbn; lra).
  assert (Hstep : 0 <= 1 * 0.1) by lra.
  rewrite (integral_saturates engine_pidX 1 0.1 200 Hband Hstep).
  assert (H200 : INR 200 = 200) by (rewrite INR_IZR_INZ; reflexivity).
  rewrite H200. cbn [engine_pidX GameEngine.newPID GAME_CONFIG.PID_X PID.new PID.integral].
  js_simpl. apply Rmin_left. lra.
Defined.

(** [reset()] forgets everything the calls before it have stored: whatever
    the history of [calculate] calls, the controller after [reset()] is the
    one a [reset()] of the fresh controller gives. *)
Theorem reset_forgets_history (p : PID.PIDController R) (calls : list (R * R)) :
  PID.reset
    (fold_left (fun q call => snd (PID.calculate q (fst call) (snd call)))
       calls p)
  = PID.reset p.
Proof.
  revert p. induction calls as [| [e dt] calls IH]; intros p; cbn [fold_left].
  - reflexivity.
  - rewrite IH. reflexivity.
Qed.

End PID_history.

(** ** One frame of combat *)

Section Combat_frame.
Local Open Scope R_scope.
Import GameEngine.

Lemma isOld_false (laser : Laser R) :
  isOld laser = false ->
  distance laser <= 120 /\ 0 <= Vector3.y (mesh_position laser).
Proof.
  unfold isOld, GAME_CONFIG.LASER_MAX_DISTANCE. js_simpl.
  intros Hold. apply orb_false_elim in Hold as [Hfar Hlow].
  destruct (Rltb_spec (Q2R 120) (distance laser)); [discriminate |].
  destruct (Rltb_spec (Vector3.y (mesh_position laser)) (Q2R 0)); [discriminate |].
  lra.
Qed.

(** What one pass of the laser loop does to the combat state. *)
Lemma sweep_facts (dt : R) (uap : Vector3.t R) (ls : list (Laser R))
    (sh ev : R) (over : bool) :
  let '(ls', sh', ev', over') := sweep dt uap ls sh ev over in
  (0 <= sh -> 0 <= sh' <= sh) /\
  (over = true -> over' = true) /\
  ev <= ev' <= ev + INR (length ls) /\
  Forall (in_flight uap) ls' /\
  sublist (map direction ls') (map direction ls) /\
  ((sh' = sh /\ over' = over) \/ 0 < sh' \/ over' = true).
Proof.
  induction ls as [| l ls IH].
  - cbn [sweep length INR map].
    refine (conj _ (conj _ (conj _ (conj _ (conj _ _))))).
    + lra.
    + intros Hover; exact Hover.
    + lra.
    + constructor.
    + constructor.
    + left. split; reflexivity.
  - cbn [sweep].
    destruct (sweep dt uap ls sh ev over) as [[[ls1 sh1] ev1] over1].
    destruct IH as (Hsh & Hover & Hev & Hlive & Hsub & Hend).
    change (length (l :: ls)) with (S (length ls)). rewrite S_INR.
    cbn [map].
    destruct (Rlt_dec (distanceToUAP dt uap l) 1.8) as [Hhit | Hmiss].
    + rewrite laserStep_hit by exact Hhit.
      refine (conj _ (conj _ (conj _ (conj _ (conj _ _))))).
      * intros Hpos. specialize (Hsh Hpos). minmax_cases.
      * intros Hov. js_simpl. rewrite (Hover Hov).
        destruct (Rleb _ _); reflexivity.
      * lra.
      * exact Hlive.
      * apply sublist_cons. exact Hsub.
      * js_simpl. right.
        destruct (Rleb_spec (Rmax 0 (sh1 - 18)) (Q2R 0)) as [Hzero | Hleft];
          [right; reflexivity | left; lra].
    + rewrite laserStep_miss by exact Hmiss. cbn zeta.
      assert (Hcredit :
        ev1 <= (if nearMiss (distanceToUAP dt uap l) (advance dt l)
                then ev1 + 1 else ev1) <= ev1 + 1)
        by (destruct (nearMiss _ _); lra).
      destruct (isOld (advance dt l)) eqn:Hold.
      * refine (conj Hsh (conj Hover (conj _ (conj Hlive (conj _ Hend))))).
        -- lra.
        -- apply sublist_cons. exact Hsub.
      * apply isOld_false in Hold as [Hfar Hlow].
        refine (conj Hsh (conj Hover (conj _ (conj _ (conj _ Hend))))).
        -- lra.
        -- constructor; [| exact Hlive].
           unfold in_flight.
           destruct (nearMiss _ _); cbn [set_counted mesh_position distance];
             (split; [exact Hmiss | split; assumption]).
        -- cbn [map].
           replace (direction (if nearMiss (distanceToUAP dt uap l) (advance dt l)
                               then set_counted true (advance dt l)
                               else advance dt l))
             with (direction l) by (destruct (nearMiss _ _); reflexivity).
           apply sublist_skip. exact Hsub.
Qed.

(** The aliens' turn: the roster keeps its size and, alien by alien, its
    [alive], [baseY] and [shotInterval]; the lasers grow at their end by at
    most one laser per alien. *)
Lemma updateAliens_facts (time now : R) (g : GameEngine.t R) (i : nat)
    (als : list (Alien R)) (ls : list (Laser R)) :
  let '(als', ls') := updateAliens time now g i als ls in
  map alive als' = map alive als /\
  map baseY als' = map baseY als /\
  map shotInterval als' = map shotInterval als /\
  exists fired, ls' = ls ++ fired /\ (length fired <= length als)%nat.
Proof.
  revert i ls. induction als as [| a als IH]; intros i ls; cbn [updateAliens].
  - repeat split. exists []. rewrite app_nil_r. split; [reflexivity | cbn; lia].
  - destruct (updateAlien time now g i a) as [a' fired] eqn:Hstep.
    assert (Ha : alive a' = alive a /\ baseY a' = baseY a
                 /\ shotInterval a' = shotInterval a
                 /\ (length (match fired with Some l => [l] | None => [] end) <= 1)%nat).
    { unfold updateAlien in Hstep.
      destruct (negb (alive a));
        [| destruct (_ && _)]; inversion Hstep; subst; cbn; repeat split; lia. }
    destruct Ha as (Halive & Hbase & Hint & Hone).
    set (ls1 := match fired with Some laser => ls ++ [laser] | None => ls end).
    specialize (IH (S i) ls1).
    destruct (updateAliens time now g (S i) als ls1) as [als' ls'].
    destruct IH as (IHa & IHb & IHi & fired' & Hls & Hlen).
    cbn [map]. rewrite Halive, Hbase, Hint, IHa, IHb, IHi.
    repeat split.
    exists (match fired with Some l => [l] | None => [] end ++ fired').
    split.
    + rewrite Hls. subst ls1. destruct fired; cbn [app].
      * rewrite <- app_assoc. reflexivity.
      * reflexivity.
    + rewrite length_app. cbn [length]. lia.
Qed.

(** The fields of the state that only the first phases of [update] write. *)
Lemma update_fields (dt time now : R) (g : GameEngine.t R) :
  let g' := update dt time now g in
  aliens g' = fst (updateAliens time now (updateCraft dt (updateBoost dt g)) 0
                     (aliens g) (lasers g)) /\
  boost g' = boost (updateBoost dt g) /\
  isBoosting g' = isBoosting (updateBoost dt g) /\
  survivalTime g' = survivalTime g + dt /\
  autopilot g' = autopilot g /\
  keys g' = keys g /\
  gameStarted g' = gameStarted g /\
  gamePaused g' = gamePaused g.
Proof.
  cbn zeta. unfold update. rewrite updateLasers_sweep.
  destruct (sweep dt _ _ _ _ _) as [[[ls sh] ev] over].
  cbn [set_combat aliens boost isBoosting survivalTime autopilot keys
       gameStarted gamePaused].
  unfold updateAliensAndShields.
  destruct (updateCraft_combat dt g) as (Hals & Hls & _).
  rewrite Hals, Hls.
  destruct (updateAliens time now _ 0 (aliens g) (lasers g)) as [als ls0].
  cbn [fst aliens boost isBoosting survivalTime autopilot keys
       gameStarted gamePaused].
  unfold updateCraft.
  destruct (if autopilot (updateBoost dt g) then _ else _)
    as [[[force px] py] pz].
  destruct (checkBounds _ _) as [position velocity].
  repeat split.
Qed.

Lemma regenShields_in_range (dt sh : R) :
  0 <= dt -> 0 <= sh <= 100 -> 0 <= regenShields dt sh <= 100.
Proof.
  intros Hdt Hsh. unfold regenShields, GAME_CONFIG.SHIELD_MAX,
    GAME_CONFIG.SHIELD_REGEN. js_simpl.
  destruct (Rltb sh (Q2R 100)); minmax_cases.
Qed.

(** The shields stay between 0 and [SHIELD_MAX]: a frame of non-negative
    delta-time started with the shields in that range ends with them in
    it, whatever hits the craft. *)
Theorem update_shields_in_range (dt time now : R) (g : GameEngine.t R) :
  0 <= dt ->
  0 <= shields g <= 100 ->
  0 <= shields (update dt time now g) <= 100.
Proof.
  intros Hdt Hsh.
  pose proof (update_sweep dt time now g) as Hup. cbn zeta in Hup.
  pose proof (sweep_facts dt
    (uap_position (updateCraft dt (updateBoost dt g)))
    (snd (updateAliens time now (updateCraft dt (updateBoost dt g)) 0
            (aliens g) (lasers g)))
    (regenShields dt (shields g)) (evadeCount g) (gameOver g)) as Hsw.
  destruct (sweep dt _ _ _ _ _) as [[[ls sh] ev] over].
  destruct Hup as (_ & Hshields & _). destruct Hsw as (Hrange & _).
  pose proof (regenShields_in_range dt (shields g) Hdt Hsh) as Hregen.
  rewrite Hshields. specialize (Hrange (proj1 Hregen)). lra.
Qed.

Lemma update_shields_in_range_witness :
  0 <= shields (update 0.1 0 0 manual_game) <= 100.
Proof.
  apply update_shields_in_range; [lra |].
  cbn [manual_game start init shields]. unfold GAME_CONFIG.SHIELD_MAX.
  js_simpl. lra.
Defined.

(** The end of the game is triggered by the hit that empties the shields:
    a frame that starts with shields left and ends with none has set
    [gameOver]. *)
Theorem emptied_shields_end_game (dt time now : R) (g : GameEngine.t R) :
  0 <= dt ->
  0 < shields g ->
  shields (update dt time now g) <= 0 ->
  gameOver (update dt time now g) = true.
Proof.
  intros Hdt Hsh Hempty.
  pose proof (update_sweep dt time now g) as Hup. cbn zeta in Hup.
  pose proof (sweep_facts dt
    (uap_position (updateCraft dt (updateBoost dt g)))
    (snd (updateAliens time now (updateCraft dt (updateBoost dt g)) 0
            (aliens g) (lasers g)))
    (regenShields dt (shields g)) (evadeCount g) (gameOver g)) as Hsw.
  destruct (sweep dt _ _ _ _ _) as [[[ls sh] ev] over].
  destruct Hup as (_ & Hshields & _ & Hover).
  destruct Hsw as (_ & _ & _ & _ & _ & Hend).
  rewrite Hover. rewrite Hshields in Hempty.
  assert (Hregen : 0 < regenShields dt (shields g)).
  { unfold regenShields, GAME_CONFIG.SHIELD_MAX, GAME_CONFIG.SHIELD_REGEN.
    js_simpl. destruct (Rltb (shields g) (Q2R 100)); minmax_cases. }
  destruct Hend as [[Hsame _] | [Hleft | Hdone]]; [lra | lra | exact Hdone].
Qed.

(** Aliens still cooling down fire nothing. *)
Lemma updateAliens_quiet (time now : R) (g : GameEngine.t R) (i : nat)
    (als : list (Alien R)) (ls : list (Laser R)) :
  Forall (fun a => now - lastShot a <= shotInterval a) als ->
  snd (updateAliens time now g i als ls) = ls.
Proof.
  intros Hcool. revert i ls.
  induction Hcool as [| a als Ha _ IH]; intros i ls; cbn [updateAliens].
  - reflexivity.
  - assert (Hnone : snd (updateAlien time now g i a) = None).
    { unfold updateAlien. js_simpl.
      destruct (negb (alive a)); [reflexivity |].
      rewrite (Rltb_false (shotInterval a)) by exact Ha.
      rewrite andb_false_r. reflexivity. }
    destruct (updateAlien time now g i a) as [a' fired]. cbn [snd] in Hnone.
    subst fired. specialize (IH (S i) ls).
    destruct (updateAliens time now g (S i) als ls) as [als' ls'].
    exact IH.
Qed.

Lemma createAliens_from_cooling (i n : nat) :
  Forall (fun a : Alien R => 0 - lastShot a <= shotInterval a)
    (createAliens_from (fun _ => 0) i n).
Proof.
  revert i. induction n as [| n IH]; intros i; cbn [createAliens_from].
  - constructor.
  - constructor; [| apply IH].
    cbn [lastShot shotInterval].
    unfold GAME_CONFIG.ALIEN_FIRE_RATE_MIN, GAME_CONFIG.ALIEN_FIRE_RATE_MAX.
    js_simpl. lra.
Qed.

Lemma emptied_shields_end_game_witness :
  gameOver (update 0 0 0 last_stand) = true.
Proof.
  apply emptied_shields_end_game.
  - lra.
  - cbn [last_stand set_combat shields]. lra.
  - pose proof (update_sweep 0 0 0 last_stand) as Hup. cbn zeta in Hup.
    rewrite updateAliens_quiet in Hup
      by (cbn [last_stand set_combat aliens manual_game start init];
          apply createAliens_from_cooling).
    set (uap := uap_position (updateCraft 0 (updateBoost 0 last_stand))) in *.
    assert (Huap : Vector3.x uap = 0 /\ Vector3.y uap = 10 /\ Vector3.z uap = 0).
    { pose proof (updateCraft_manual_velocity 0 (updateBoost 0 last_stand) eq_refl)
        as Hcraft. cbn zeta in Hcraft. unfold craft in Hcraft.
      assert (Hpos : uap = fst (checkBounds
        (Vector3.add (uap_position (updateBoost 0 last_stand))
           (Vector3.multiplyScalar
              (Vector3.multiplyScalar
                 (Vector3.add (uapVelocity (updateBoost 0 last_stand))
                    (Vector3.multiplyScalar
                       (manualForce (updateBoost 0 last_stand)
                          (if isBoosting (updateBoost 0 last_stand)
                           then GAME_CONFIG.UAP_BOOST_THRUST
                           else GAME_CONFIG.UAP_THRUST)) 0))
                 GAME_CONFIG.UAP_DAMPING) 0))
        (Vector3.multiplyScalar
           (Vector3.add (uapVelocity (updateBoost 0 last_stand))
              (Vector3.multiplyScalar
                 (manualForce (updateBoost 0 last_stand)
                    (if isBoosting (updateBoost 0 last_stand)
                     then GAME_CONFIG.UAP_BOOST_THRUST
                     else GAME_CONFIG.UAP_THRUST)) 0))
           GAME_CONFIG.UAP_DAMPING))) by (subst uap; congruence).
      rewrite Hpos. clear Hpos Hcraft Hup uap.
      unfold checkBounds, Vector3.add, Vector3.multiplyScalar.
      cbn [Vector3.x Vector3.y Vector3.z uap_position uapVelocity updateBoost
           last_stand set_combat manual_game start init Vector3.zero].
      unfold GAME_CONFIG.WORLD_BOUNDS_x, GAME_CONFIG.WORLD_BOUNDS_z,
        GAME_CONFIG.WORLD_BOUNDS_y_min, GAME_CONFIG.WORLD_BOUNDS_y_max.
      js_simpl.
      rewrite (Rltb_false _ (Q2R 1)) by lra.
      cbn [fst Vector3.x Vector3.y Vector3.z].
      rewrite (Rltb_false (Q2R 50)) by lra.
      repeat split; minmax_cases. }
    destruct Huap as (Hx & Hy & Hz).
    assert (Hhit : distanceToUAP 0 uap (incoming 0 1 0 false) < 1.8).
    { unfold distanceToUAP, Vector3.distanceTo, Vector3.distanceToSquared,
        advance, incoming, Vector3.add, Vector3.multiplyScalar.
      cbn [mesh_position direction speed Vector3.x Vector3.y Vector3.z].
      js_simpl. rewrite Hx, Hy, Hz. apply sqrt_upper; lra. }
    cbn [last_stand set_combat lasers shields evadeCount gameOver sweep] in Hup.
    rewrite laserStep_hit in Hup by exact Hhit.
    destruct Hup as (_ & Hsh & _). rewrite Hsh.
    unfold regenShields, GAME_CONFIG.SHIELD_MAX, GAME_CONFIG.SHIELD_REGEN.
    js_simpl. rewrite Rltb_true by lra. minmax_cases.
Defined.

(** After a frame, every laser still in the air is outside the hit radius
    of the craft where the frame has put it, has travelled no more than
    [LASER_MAX_DISTANCE] and is not below the ground. *)
Theorem update_lasers_in_flight (dt time now : R) (g : GameEngine.t R) :
  Forall (in_flight (uap_position (update dt time now g)))
    (lasers (update dt time now g)).
Proof.
  pose proof (update_sweep dt time now g) as Hup. cbn zeta in Hup.
  pose proof (sweep_facts dt
    (uap_position (updateCraft dt (updateBoost dt g)))
    (snd (updateAliens time now (updateCraft dt (updateBoost dt g)) 0
            (aliens g) (lasers g)))
    (regenShields dt (shields g)) (evadeCount g) (gameOver g)) as Hsw.
  destruct (sweep dt _ _ _ _ _) as [[[ls sh] ev] over].
  destruct Hup as (Hlasers & _). destruct Hsw as (_ & _ & _ & Hlive & _).
  rewrite Hlasers.
  pose proof (update_craft dt time now g) as Hcraft. unfold craft in Hcraft.
  replace (uap_position (update dt time now g))
    with (uap_position (updateCraft dt (updateBoost dt g))) by congruence.
  exact Hlive.
Qed.

(** A frame adds at most one laser per alien, and the evade count never
    goes down and rises by at most one per laser in the air. *)
Theorem update_lasers_and_evades (dt time now : R) (g : GameEngine.t R) :
  let g' := update dt time now g in
  (length (lasers g') <= length (lasers g) + length (aliens g))%nat /\
  evadeCount g <= evadeCount g'
    <= evadeCount g + INR (length (lasers g) + length (aliens g)).
Proof.
  cbn zeta.
  pose proof (update_sweep dt time now g) as Hup. cbn zeta in Hup.
  pose proof (updateAliens_facts time now
    (updateCraft dt (updateBoost dt g)) 0 (aliens g) (lasers g)) as Hal.
  destruct (updateAliens time now _ 0 (aliens g) (lasers g)) as [als fired].
  destruct Hal as (_ & _ & _ & new & Hfired & Hnew).
  cbn [snd] in Hup.
  pose proof (sweep_facts dt
    (uap_position (updateCraft dt (updateBoost dt g))) fired
    (regenShields dt (shields g)) (evadeCount g) (gameOver g)) as Hsw.
  destruct (sweep dt _ fired _ _ _) as [[[ls sh] ev] over].
  destruct Hup as (Hlasers & _ & Hev & _).
  destruct Hsw as (_ & _ & Hcount & _ & Hsub & _).
  rewrite Hlasers, Hev.
  assert (Hlen : (length fired <= length (lasers g) + length (aliens g))%nat)
    by (rewrite Hfired, length_app; lia).
  split.
  - apply sublist_length in Hsub. rewrite !length_map in Hsub. lia.
  - apply le_INR in Hlen. lra.
Qed.

(** A frame leaves the roster of aliens as it is: as many aliens, each
    with its [alive] flag, its [baseY] and its [shotInterval]. *)
Theorem update_keeps_roster (dt time now : R) (g : GameEngine.t R) :
  let g' := update dt time now g in
  length (aliens g') = length (aliens g) /\
  map alive (aliens g') = map alive (aliens g) /\
  map baseY (aliens g') = map baseY (aliens g) /\
  map shotInterval (aliens g') = map shotInterval (aliens g).
Proof.
  cbn zeta.
  destruct (update_fields dt time now g) as (Hals & _). rewrite Hals.
  pose proof (updateAliens_facts time now
    (updateCraft dt (updateBoost dt g)) 0 (aliens g) (lasers g)) as Hal.
  destruct (updateAliens time now _ 0 (aliens g) (lasers g)) as [als fired].
  destruct Hal as (Halive & Hbase & Hint & _). cbn [fst].
  repeat split; try assumption.
  rewrite <- (length_map alive als), Halive. apply length_map.
Qed.

(** The boost reserve stays between 0 and 100 over a frame of non-negative
    delta-time, and the craft boosts in a frame only if [KeyE] is held and
    the reserve was not empty. *)
Theorem update_boost_in_range (dt time now : R) (g : GameEngine.t R) :
  0 <= dt ->
  0 <= boost g <= 100 ->
  0 <= boost (update dt time now g) <= 100 /\
  (isBoosting (update dt time now g) = true ->
   key g "KeyE" = true /\ 0 < boost g).
Proof.
  intros Hdt Hboost.
  destruct (update_fields dt time now g) as (_ & Hb & Hi & _).
  rewrite Hb, Hi. unfold updateBoost. cbn [boost isBoosting].
  unfold GAME_CONFIG.UAP_BOOST_DRAIN, GAME_CONFIG.UAP_BOOST_RECHARGE.
  js_simpl. split.
  - destruct (key g "KeyE" && Rltb (Q2R 0) (boost g));
      [| destruct (Rltb (boost g) (Q2R 100))]; minmax_cases.
  - intros Hon. apply andb_true_iff in Hon as [Hkey Hleft].
    split; [exact Hkey |].
    destruct (Rltb_spec (Q2R 0) (boost g)); [lra | discriminate].
Qed.

Lemma update_boost_in_range_witness :
  0 <= boost (update 0.1 0 0 manual_game) <= 100.
Proof.
  apply (update_boost_in_range 0.1 0 0 manual_game); [lra |].
  cbn [manual_game start init boost]. js_simpl. lra.
Defined.

End Combat_frame.

(** ** Lasers at their creation *)

Section Laser_creation.
Local Open Scope R_scope.
Import GameEngine.





(** A laser created with its target at its own start has the zero vector
    for direction: it stays where it is, and still ages by
    [speed * dt] each frame. *)
Theorem createLaser_at_target_stands_still (p : Vector3.t R) (dt : R) :
  let laser := advance dt (createLaser p p) in
  Vector3.x (mesh_position laser) = Vector3.x p /\
  Vector3.y (mesh_position laser) = Vector3.y p /\
  Vector3.z (mesh_position laser) = Vector3.z p /\
  distance laser = 60 * dt.
Proof.
  cbn zeta. unfold advance, createLaser, Vector3.normalize,
    Vector3.divideScalar, Vector3.multiplyScalar, Vector3.add,
    Vector3.subVectors, Vector3.length.
  cbn [mesh_position direction speed distance Vector3.x Vector3.y Vector3.z].
  unfold GAME_CONFIG.LASER_SPEED. js_simpl.
  replace ((Vector3.x p - Vector3.x p) * (Vector3.x p - Vector3.x p)
           + (Vector3.y p - Vector3.y p) * (Vector3.y p - Vector3.y p)
           + (Vector3.z p - Vector3.z p) * (Vector3.z p - Vector3.z p))
    with 0 by ring.
  rewrite sqrt_0.
  unfold Rtruthy. destruct (Req_dec_T 0 0) as [_ | Hne]; [| contradiction].
  repeat split; try (replace (Q2R 1) with 1 by lra; field); lra.
Qed.

End Laser_creation.

(** ** Threats *)

Section Threats.
Local Open Scope R_scope.
Import GameEngine.

(** The push of one laser in range has the length [20 / (d + 1)]. *)
Lemma avoidLaser_length (uap : Vector3.t R) (laser : Laser R) :
  let d := Vector3.length (Vector3.subVectors uap (mesh_position laser)) in
  0 < d < 20 ->
  Vector3.length (avoidLaser uap Vector3.zero laser) = 20 / (d + 1).
Proof.
  intros d Hd. rewrite avoidLaser_near by exact Hd. fold d.
  unfold Vector3.length, Vector3.add, Vector3.multiplyScalar, Vector3.zero.
  cbn [Vector3.x Vector3.y Vector3.z]. js_simpl.
  set (v := Vector3.subVectors uap (mesh_position laser)) in *.
  set (s := Vector3.x v * Vector3.x v + Vector3.y v * Vector3.y v
            + Vector3.z v * Vector3.z v).
  assert (Hs : 0 <= s) by (subst s; nra).
  assert (Hsq : d * d = s) by (apply sqrt_sqrt; exact Hs).
  set (k := 20 / (d + 1)).
  assert (Hk : 0 <= k).
  { subst k. apply Rmult_le_pos; [lra |].
    apply Rlt_le, Rinv_0_lt_compat. lra. }
  clearbody k d.
  replace (_ + _ + _) with (k * k * (s / (d * d))).
  2:{ subst s. replace (Q2R 0) with 0 by lra. field. lra. }
  rewrite Hsq. replace (k * k * (s / s)) with (k * k) by (field; nra).
  apply sqrt_square. exact Hk.
Qed.

(** A single laser in range, with every alien out of range, is enough to
    switch the patrol off: the accumulated danger has the length
    [20 / (d + 1)], more than 1/2, and the target is within 70% of the
    arena bounds in X and Z. *)
Theorem single_laser_suppresses_patrol (g : GameEngine.t R) (laser : Laser R) :
  let d := Vector3.length
             (Vector3.subVectors (uap_position g) (mesh_position laser)) in
  lasers g = [laser] ->
  Forall (fun alien =>
    15 <= Vector3.length (Vector3.subVectors (uap_position g) (position alien)))
    (aliens g) ->
  0 < d < 20 ->
  Vector3.length (accumulateDanger g) = 20 / (d + 1) /\
  -42 <= Vector3.x (calculateEvadeTarget g) <= 42 /\
  -42 <= Vector3.z (calculateEvadeTarget g) <= 42.
Proof.
  intros d Hone Hfar Hd.
  assert (Hlen : Vector3.length (accumulateDanger g) = 20 / (d + 1)).
  { unfold accumulateDanger. rewrite Hone. cbn [fold_left].
    rewrite fold_avoidAlien_far by exact Hfar.
    apply avoidLaser_length. exact Hd. }
  split; [exact Hlen |].
  rewrite calculateEvadeTarget_cases, Hlen.
  assert (Hweight : 1 <= 2 * (20 / (d + 1))).
  { apply Rmult_le_reg_r with (d + 1); [lra |].
    replace (2 * (20 / (d + 1)) * (d + 1)) with 40 by (field; lra). lra. }
  rewrite Rltb_false by exact Hweight.
  cbn [Vector3.x Vector3.z]. split; minmax_cases.
Qed.

Lemma single_laser_suppresses_patrol_witness :
  -42 <= Vector3.x (calculateEvadeTarget distant_laser_game) <= 42 /\
  -42 <= Vector3.z (calculateEvadeTarget distant_laser_game) <= 42.
Proof.
  assert (Hd : Vector3.length
            (Vector3.subVectors (uap_position distant_laser_game)
               (mesh_position (incoming 0 19.5 0 false))) = 19.5).
  { unfold Vector3.length, Vector3.subVectors, incoming.
    cbn [distant_laser_game set_combat uap_position autopilot_game start init
         mesh_position Vector3.x Vector3.y Vector3.z]. js_simpl.
    replace (_ + _ + _) with (19.5 * 19.5) by lra. apply sqrt_square. lra. }
  apply (single_laser_suppresses_patrol distant_laser_game
           (incoming 0 19.5 0 false)).
  - reflexivity.
  - cbn [distant_laser_game set_combat aliens uap_position
         autopilot_game start init].
    eapply Forall_impl; [apply createAliens_from_on_ring |].
    intros alien [Hring Hy]. cbn beta.
    unfold Vector3.length, Vector3.subVectors.
    cbn [Vector3.x Vector3.y Vector3.z]. js_simpl.
    apply sqrt_lower; [lra |]. rewrite Hy. nra.
  - rewrite Hd. lra.
Defined.

(** A laser exactly at the position of the craft pushes nowhere: the
    accumulator keeps its value. *)
Theorem laser_at_craft_adds_nothing (uap acc : Vector3.t R) (laser : Laser R) :
  mesh_position laser = uap ->
  avoidLaser uap acc laser = acc.
Proof.
  intros Hat. unfold avoidLaser. rewrite Hat.
  assert (Hzero : Vector3.length (Vector3.subVectors uap uap) = 0).
  { unfold Vector3.length, Vector3.subVectors.
    cbn [Vector3.x Vector3.y Vector3.z]. js_simpl.
    replace (_ + _ + _) with 0 by ring. apply sqrt_0. }
  rewrite Hzero. js_simpl. rewrite Rltb_true by lra.
  unfold Vector3.normalize, Vector3.divideScalar. rewrite Hzero. js_simpl.
  unfold Rtruthy. destruct (Req_dec_T 0 0) as [_ | Hne]; [| contradiction].
  destruct acc as [ax ay az].
  unfold Vector3.add, Vector3.multiplyScalar, Vector3.subVectors.
  cbn [Vector3.x Vector3.y Vector3.z]. js_simpl.
  replace (Q2R 1) with 1 by lra. f_equal; field; lra.
Qed.

Lemma laser_at_craft_adds_nothing_witness :
  avoidLaser hover_point Vector3.zero (incoming 0 0 0 false) = Vector3.zero.
Proof.
  apply laser_at_craft_adds_nothing. reflexivity.
Defined.



End Threats.

(** ** Keys and manual flight *)

Section Manual_flight.
Local Open Scope R_scope.
Import GameEngine.

(** The key state is what the last event for each key says: a key is held
    after its [keydown], released after its [keyup], an event for one key
    leaves the others alone, and a key never touched is not held. *)
Theorem key_follows_events (code other : string) (g : GameEngine.t R)
    (rnd : nat -> R) :
  key (handleKeyDown code g) other = bool_decide (code = other) || key g other /\
  key (handleKeyUp code g) other = negb (bool_decide (code = other)) && key g other /\
  key (init rnd) other = false.
Proof.
  unfold key, handleKeyDown, handleKeyUp. cbn [set_keys keys init].
  rewrite !lookup_insert, lookup_empty.
  destruct (decide (code = other)) as [Heq | Hne].
  - rewrite !bool_decide_eq_true_2 by exact Heq. repeat split.
  - rewrite !bool_decide_eq_false_2 by exact Hne. repeat split.
Qed.

(** Opposite keys cancel: with [KeyW] and [KeyS] both held or both
    released there is no force along Z, and likewise [KeyA] and [KeyD]
    along X. *)
Theorem opposite_keys_cancel (g : GameEngine.t R) (thrust : R) :
  key g "KeyW" = key g "KeyS" ->
  key g "KeyA" = key g "KeyD" ->
  Vector3.z (manualForce g thrust) = 0 /\
  Vector3.x (manualForce g thrust) = 0.
Proof.
  intros Hws Had. unfold manualForce. rewrite Hws, Had.
  cbn [Vector3.x Vector3.z]. js_simpl.
  destruct (key g "KeyS"), (key g "KeyD"); split; lra.
Qed.

Lemma opposite_keys_cancel_witness :
  let g := handleKeyDown "KeyS" (handleKeyDown "KeyW" manual_game) in
  Vector3.z (manualForce g 40) = 0 /\ Vector3.x (manualForce g 40) = 0.
Proof.
  exact (opposite_keys_cancel
           (handleKeyDown "KeyS" (handleKeyDown "KeyW" manual_game)) 40
           eq_refl eq_refl).
Defined.

(** Whatever keys are held, each component of the manual force is bounded
    by the thrust: X and Z by [thrust], Y between [-thrust / 2 - 1] and
    [thrust - 1]. *)
Theorem manualForce_bounded (g : GameEngine.t R) (thrust : R) :
  0 <= thrust ->
  Rabs (Vector3.x (manualForce g thrust)) <= thrust /\
  Rabs (Vector3.z (manualForce g thrust)) <= thrust /\
  - thrust / 2 - 1 <= Vector3.y (manualForce g thrust) <= thrust - 1.
Proof.
  intros Hthrust. unfold manualForce.
  cbn [Vector3.x Vector3.y Vector3.z].
  unfold GAME_CONFIG.UAP_GRAVITY, GAME_CONFIG.UAP_HOVER_FORCE. js_simpl.
  destruct (key g "KeyW"), (key g "KeyS"), (key g "KeyA"), (key g "KeyD"),
    (key g "Space"), (key g "ShiftLeft" || key g "ShiftRight");
    repeat split; try (apply Rabs_le); lra.
Qed.

Lemma manualForce_bounded_witness :
  Rabs (Vector3.x (manualForce manual_game 40)) <= 40.
Proof.
  assert (Hthrust : 0 <= 40) by lra.
  exact (proj1 (manualForce_bounded manual_game 40 Hthrust)).
Defined.

(** The floor is a resting place: in manual mode with no movement key
    held, a craft standing still on the floor, inside the arena, is left
    by a frame where it is, its velocity still zero. *)
Theorem craft_rests_on_floor (dt time now : R) (g : GameEngine.t R) :
  0 <= dt ->
  autopilot g = false ->
  key g "KeyW" = false -> key g "KeyS" = false ->
  key g "KeyA" = false -> key g "KeyD" = false ->
  key g "Space" = false ->
  key g "ShiftLeft" = false -> key g "ShiftRight" = false ->
  uapVelocity g = Vector3.mk 0 0 0 ->
  Vector3.y (uap_position g) = 1 ->
  -60 <= Vector3.x (uap_position g) <= 60 ->
  -60 <= Vector3.z (uap_position g) <= 60 ->
  uap_position (update dt time now g) = uap_position g /\
  uapVelocity (update dt time now g) = Vector3.mk 0 0 0.
Proof.
  intros Hdt Hman HW HS HA HD Hspace Hleft Hright Hrest Hfloor Hx Hz.
  pose proof (update_craft dt time now g) as Hc. unfold craft in Hc.
  pose proof (updateCraft_manual_velocity dt (updateBoost dt g) Hman) as Hm.
  cbn zeta in Hm. unfold craft in Hm.
  assert (Hforce : forall thrust,
            manualForce (updateBoost dt g) thrust = Vector3.mk 0 (-1) 0).
  { intros thrust. unfold manualForce.
    change (key (updateBoost dt g)) with (key g).
    rewrite HW, HS, HA, HD, Hspace, Hleft, Hright. cbn [orb].
    unfold GAME_CONFIG.UAP_GRAVITY, GAME_CONFIG.UAP_HOVER_FORCE. js_simpl.
    f_equal; lra. }
  rewrite Hforce in Hm.
  change (uapVelocity (updateBoost dt g)) with (uapVelocity g) in Hm.
  change (uap_position (updateBoost dt g)) with (uap_position g) in Hm.
  rewrite Hrest in Hm.
  destruct (uap_position g) as [px py pz] eqn:Hp.
  cbn [Vector3.x Vector3.y Vector3.z] in Hfloor, Hx, Hz. subst py.
  unfold checkBounds, Vector3.add, Vector3.multiplyScalar in Hm.
  cbn [Vector3.x Vector3.y Vector3.z] in Hm.
  unfold GAME_CONFIG.WORLD_BOUNDS_x, GAME_CONFIG.WORLD_BOUNDS_z,
    GAME_CONFIG.WORLD_BOUNDS_y_min, GAME_CONFIG.WORLD_BOUNDS_y_max,
    GAME_CONFIG.UAP_DAMPING in Hm.
  js_simpl.
  assert (Hpos : uap_position (update dt time now g)
                 = Vector3.mk px 1 pz /\
                 uapVelocity (update dt time now g) = Vector3.mk 0 0 0);
    [| exact Hpos].
  assert (Hdt2 : 0 <= dt * dt) by nra.
  destruct (Rltb_spec (1 + (0 + -1 * dt) * Q2R 0.94 * dt) (Q2R 1))
    as [Hsink | Hstay]; cbn [fst snd] in Hm.
  - rewrite (Rltb_false (Q2R 50)) in Hm by lra.
    split; [transitivity (fst (fst (fst (fst
              (uap_position (update dt time now g),
               uapVelocity (update dt time now g),
               pidX (update dt time now g), pidY (update dt time now g),
               pidZ (update dt time now g)))))); [reflexivity |]
           | transitivity (snd (fst (fst (fst
              (uap_position (update dt time now g),
               uapVelocity (update dt time now g),
               pidX (update dt time now g), pidY (update dt time now g),
               pidZ (update dt time now g)))))); [reflexivity |]];
      rewrite Hc, Hm; cbn [fst snd]; f_equal; minmax_cases.
  - assert (Hzero : dt = 0) by nra. subst dt.
    rewrite (Rltb_false (Q2R 50)) in Hm by lra.
    split; [transitivity (fst (fst (fst (fst
              (uap_position (update 0 time now g),
               uapVelocity (update 0 time now g),
               pidX (update 0 time now g), pidY (update 0 time now g),
               pidZ (update 0 time now g)))))); [reflexivity |]
           | transitivity (snd (fst (fst (fst
              (uap_position (update 0 time now g),
               uapVelocity (update 0 time now g),
               pidX (update 0 time now g), pidY (update 0 time now g),
               pidZ (update 0 time now g)))))); [reflexivity |]];
      rewrite Hc, Hm; cbn [fst snd]; f_equal; minmax_cases.
Qed.

Lemma craft_rests_on_floor_witness :
  let g := craft_at (Vector3.mk 0 1 0) 0 manual_game in
  uap_position (update 0.1 0 0 g) = uap_position g /\
  uapVelocity (update 0.1 0 0 g) = Vector3.mk 0 0 0.
Proof.
  assert (Hkey : forall code,
            key (craft_at (Vector3.mk 0 1 0) 0 manual_game) code = false).
  { intros code. unfold key. cbn [craft_at keys manual_game start init].
    rewrite lookup_empty. reflexivity. }
  apply craft_rests_on_floor; try apply Hkey; try reflexivity;
    cbn [craft_at uap_position uapVelocity manual_game start init
         Vector3.x Vector3.y Vector3.z Vector3.zero]; try lra.
  unfold Vector3.zero. js_simpl. f_equal; lra.
Defined.

End Manual_flight.

(** ** Commands, frames and the overlay *)

Section Commands.
Local Open Scope R_scope.
Import GameEngine.

(** Pausing twice brings a game in progress back to the state it was in;
    before the start and after the end of a game [togglePause] does
    nothing at all. *)
Theorem togglePause_twice (g : GameEngine.t R) :
  togglePause (togglePause g) = g /\
  (gameStarted g = false \/ gameOver g = true -> togglePause g = g).
Proof.
  split.
  - destruct g as [p v als ls sh b t ev ib ap started paused over ks px py pz].
    unfold togglePause.
    cbn [gameStarted gameOver gamePaused uap_position uapVelocity aliens
         lasers shields boost survivalTime evadeCount isBoosting autopilot
         keys pidX pidY pidZ].
    destruct started, over, paused; reflexivity.
  - intros [Hs | Ho]; unfold togglePause; rewrite ?Hs, ?Ho; cbn [negb orb].
    + reflexivity.
    + rewrite orb_true_r. reflexivity.
Qed.

(** A frame changes the engine state exactly when no menu is laid over the
    canvas, which is exactly when the crosshair is shown: then it is an
    [update] with the delta-time capped at 0.1; under any menu (start,
    pause, game over) the state is left as it is. *)
Theorem frame_runs_iff_no_menu (delta time now : R) (g : GameEngine.t R) :
  let menu := UI.Menu (gameStarted g) (gamePaused g) (gameOver g) in
  let crosshair :=
    UI.showCrosshair (gameStarted g) (gamePaused g) (gameOver g) in
  (menu = None <-> crosshair = true) /\
  animate delta time now g =
    (if crosshair then update (Rmin delta 0.1) time now g else g) /\
  Rmin delta 0.1 <= 0.1.
Proof.
  cbn zeta. unfold UI.Menu, UI.showCrosshair, animate, frame_dt. js_simpl.
  split; [| split; [reflexivity | apply Rmin_r]].
  destruct (gameStarted g), (gamePaused g), (gameOver g); cbn;
    split; intros Heq; try reflexivity; discriminate.
Qed.

(** [quit()] leaves the game reset and stopped: the start menu is up, the
    shields are full, nothing is in the air, and frames change nothing
    until [start] is called, after which they are [update]s again. *)
Theorem quit_stops_the_game (rnd : nat -> R) (delta time now : R) (b : bool)
    (g : GameEngine.t R) :
  let q := quit rnd g in
  UI.Menu (gameStarted q) (gamePaused q) (gameOver q) = Some UI.StartMenu /\
  shields q = GAME_CONFIG.SHIELD_MAX /\ lasers q = [] /\
  animate delta time now q = q /\
  animate delta time now (start b q)
    = update (frame_dt delta) time now (start b q).
Proof.
  cbn zeta. repeat split.
Qed.

Lemma resetAliens_again (rnd : nat -> R) (k : nat) (als : list (Alien R)) :
  resetAliens rnd k (resetAliens rnd k als) = resetAliens rnd k als.
Proof.
  revert k. induction als as [| a als IH]; intros k; cbn [resetAliens].
  - reflexivity.
  - rewrite IH. reflexivity.
Qed.

(** [restart()] always leaves a game in progress with no menu up, even
    from the game-over or the pause screen, and restarting again with the
    same random draws changes nothing more. *)
Theorem restart_resumes (rnd : nat -> R) (g : GameEngine.t R) :
  let r := restart rnd g in
  UI.Menu (gameStarted r) (gamePaused r) (gameOver r) = None /\
  restart rnd r = r.
Proof.
  cbn zeta. split; [reflexivity |].
  unfold restart.
  cbn [aliens pidX pidY pidZ isBoosting autopilot keys].
  rewrite resetAliens_again. reflexivity.
Qed.



End Commands.
